(** * homebridge-wave-plus: payload codec, air-quality bands and session driver

    A shallow embedding of [src/index.ts] (the Homebridge accessory that polls
    an Airthings Wave Plus over Bluetooth LE) and of the second copy of that
    file kept in the repository ([src/unnamed/part_000], module [Part000]
    below).  Buffers are lists of bytes, integer sensor words are [Z], the
    scaled readings are rationals ([Q]); the asynchronous driver is written
    as explicit state passing over the plugin's fields, with the radio's
    answers supplied by an environment record and every outward call
    recorded in a trace of events. *)

From Stdlib Require Import ZArith QArith List String Ascii Bool Lia.
From Stdlib.Strings Require Import Byte.
Import ListNotations.
Open Scope Z_scope.

(** ** Buffers and [struct.unpack] *)

Definition Buffer := list byte.

Definition u8 (b : byte) : Z := Z.of_N (Byte.to_N b).

Inductive ByteOrder := LittleEndian | BigEndian.

(** The format characters the two call sites use. *)
Inductive Code := uchar | ushort | ulong.

Definition codeOfChar (c : ascii) : option Code :=
  if Ascii.eqb c "B" then Some uchar
  else if Ascii.eqb c "H" then Some ushort
  else if Ascii.eqb c "L" then Some ulong
  else None.

Fixpoint codesOf (s : string) : option (list Code) :=
  match s with
  | EmptyString => Some []
  | String c rest =>
      match codeOfChar c, codesOf rest with
      | Some k, Some ks => Some (k :: ks)
      | _, _ => None
      end
  end.

Record Format := {
  order : ByteOrder;
  native : bool;
  codes : list Code
}.

(** Modelled from the spec: the format language of the [python-struct]
    package, whose code is not under src/; sections 4.1 and 6 of the spec give
    the two wire layouts it is used for.  A leading ["<"] selects
    little-endian with standard sizes and no padding; a format with no prefix
    is native: the host's byte order, native sizes and alignment. *)
Definition parseFormat (host : ByteOrder) (s : string) : option Format :=
  match s with
  | String c rest =>
      if Ascii.eqb c "<" then
        option_map (fun ks => {| order := LittleEndian; native := false; codes := ks |})
                   (codesOf rest)
      else
        option_map (fun ks => {| order := host; native := true; codes := ks |})
                   (codesOf s)
  | EmptyString => Some {| order := host; native := true; codes := [] |}
  end.

(** Standard sizes; the native size of [L] is the platform's C long and is
    left out, the native format of the source has only [B] and [H]. *)
Definition sizeOf (native : bool) (c : Code) : option nat :=
  match c with
  | uchar => Some 1%nat
  | ushort => Some 2%nat
  | ulong => if native then None else Some 4%nat
  end.

Definition alignUp (position size : nat) : nat :=
  (position + (size - position mod size) mod size)%nat.

Definition decodeLE (bs : list byte) : Z :=
  fold_right (fun b acc => u8 b + 256 * acc) 0 bs.

Definition decodeUnsigned (o : ByteOrder) (bs : list byte) : Z :=
  match o with
  | LittleEndian => decodeLE bs
  | BigEndian => decodeLE (rev bs)
  end.

(** Modelled from the spec: the field loop of [python-struct]'s unpack (not
    under src/).  Each field is read at the running position, after native
    padding; a field that would end past the buffer makes the call throw
    ([None]).  Bytes after the last field are not read. *)
Fixpoint unpackFrom (o : ByteOrder) (nat_mode : bool) (cs : list Code)
         (position : nat) (data : Buffer) : option (list Z) :=
  match cs with
  | [] => Some []
  | c :: cs' =>
      match sizeOf nat_mode c with
      | None => None
      | Some size =>
          let position := if nat_mode then alignUp position size else position in
          if (position + size <=? List.length data)%nat then
            match unpackFrom o nat_mode cs' (position + size) data with
            | Some vs =>
                Some (decodeUnsigned o (firstn size (skipn position data)) :: vs)
            | None => None
            end
          else None
      end
  end.

Definition unpack (host : ByteOrder) (format : string) (data : Buffer)
  : option (list Z) :=
  match parseFormat host format with
  | Some f => unpackFrom (order f) (native f) (codes f) 0 data
  | None => None
  end.

(** ** The reading derived from the characteristic's buffer

    The scaled values are kept as exact rationals.  The source computes
    them as doubles; the only tests made on them are comparisons of a
    half-integer with integer thresholds and [!==] between two quotients by
    the same constant of integers below 65536, on which doubles and
    rationals agree. *)

Record Reading := {
  humidity : Q;
  radonStAvg : Z;
  radonLtAvg : Z;
  temp : Q;
  pressure : Q;
  co2 : Z;
  voc : Z
}.

(** [data[i]]; every successful unpack of the payload format has twelve
    entries, so the default is never returned in [main]. *)
Definition field (data : list Z) (i : nat) : Z := nth i data 0.

Definition readingOf (data : list Z) : Reading :=
  {| humidity := inject_Z (field data 1) / 2;
     radonStAvg := field data 4;
     radonLtAvg := field data 5;
     temp := inject_Z (field data 6) / 100;
     pressure := inject_Z (field data 7) / 50;
     co2 := field data 8 * 1;
     voc := field data 9 * 1 |}.

(** [struct.unpack('BBBBHHHHHHHH', buf)] followed by the seven derivations. *)
Definition decodePayload (host : ByteOrder) (buf : Buffer) : option Reading :=
  option_map readingOf (unpack host "BBBBHHHHHHHH" buf).

(** ** Air quality *)

Definition Qgeb (x y : Q) : bool := Qle_bool y x.
Definition Qltb (x y : Q) : bool := negb (Qle_bool y x).

(** The four [if]/[else if] chains of [main], each taking the running [aq]. *)
Definition humidityStep (h : Q) : Z :=
  if Qgeb h 70 || Qltb h 25 then 5
  else if Qgeb h 60 || Qltb h 30 then 3
  else 2.

Definition radonStep (aq radon : Z) : Z :=
  if radon >=? 150 then Z.max aq 5
  else if radon >=? 100 then Z.max aq 3
  else Z.max aq 2.

Definition co2Step (aq c : Z) : Z :=
  if c >=? 1500 then Z.max aq 5
  else if c >=? 1200 then Z.max aq 4
  else if c >=? 800 then Z.max aq 3
  else Z.max aq 2.

Definition vocStep (aq v : Z) : Z :=
  if v >=? 2000 then Z.max aq 5
  else if v >=? 250 then Z.max aq 3
  else Z.max aq 2.

Definition airQuality (h : Q) (radon c v : Z) : Z :=
  let aq := 0 in
  let aq := humidityStep h in
  let aq := radonStep aq radon in
  let aq := co2Step aq c in
  let aq := vocStep aq v in
  aq.

(** ** Configuration, plugin fields and the trace of outward calls *)

Record Config := {
  name : string;
  serialNumber : option string;
  frequency : option Z;
  disableAQ : bool;
  disableCO2 : bool;
  disableHumidity : bool;
  disableTemp : bool;
  influxURL : option string;
  influxToken : option string;
  influxOrg : option string;
  influxBucket : option string
}.

(** JavaScript truthiness of an optional string. *)
Definition truthy (s : option string) : bool :=
  match s with
  | Some (String _ _) => true
  | _ => false
  end.

Module LastState.
Record t := {
  aq : Z;
  voc : Z;
  co2 : Z;
  humidity : Q;
  temp : Q
}.

Definition init : t :=
  {| aq := -1; voc := -1; co2 := -1; humidity := inject_Z (-1); temp := inject_Z (-1) |}.

Definition set_aq_voc (s : t) (a v : Z) : t :=
  {| aq := a; voc := v; co2 := co2 s; humidity := humidity s; temp := temp s |}.
Definition set_co2 (s : t) (c : Z) : t :=
  {| aq := aq s; voc := voc s; co2 := c; humidity := humidity s; temp := temp s |}.
Definition set_humidity (s : t) (h : Q) : t :=
  {| aq := aq s; voc := voc s; co2 := co2 s; humidity := h; temp := temp s |}.
Definition set_temp (s : t) (x : Q) : t :=
  {| aq := aq s; voc := voc s; co2 := co2 s; humidity := humidity s; temp := x |}.
End LastState.

Record Advertisement := {
  manufacturerData : option Buffer
}.

(** A discovered [noble.Peripheral]; its connection state lives with the
    radio and is read through the environment. *)
Record Peripheral := {
  uuid : string;
  advertisement : option Advertisement;
  rssi : Z
}.

(** A [setTimeout] delay; [NaNDelay] is [1000 * Math.max(60, undefined)]. *)
Inductive Delay := Ms (n : Z) | NaNDelay.

Record Plugin := {
  _aqService : bool;
  _co2Service : bool;
  _humidityService : bool;
  _tempService : bool;
  _lastState : LastState.t;
  _mainTimer : option Delay;
  _scanning : bool;
  _peripheral : option Peripheral;
  _influx : bool
}.

Definition set_lastState (p : Plugin) (s : LastState.t) : Plugin :=
  {| _aqService := _aqService p; _co2Service := _co2Service p;
     _humidityService := _humidityService p; _tempService := _tempService p;
     _lastState := s; _mainTimer := _mainTimer p; _scanning := _scanning p;
     _peripheral := _peripheral p; _influx := _influx p |}.

Definition set_mainTimer (p : Plugin) (d : option Delay) : Plugin :=
  {| _aqService := _aqService p; _co2Service := _co2Service p;
     _humidityService := _humidityService p; _tempService := _tempService p;
     _lastState := _lastState p; _mainTimer := d; _scanning := _scanning p;
     _peripheral := _peripheral p; _influx := _influx p |}.

Definition set_scanning (p : Plugin) (b : bool) : Plugin :=
  {| _aqService := _aqService p; _co2Service := _co2Service p;
     _humidityService := _humidityService p; _tempService := _tempService p;
     _lastState := _lastState p; _mainTimer := _mainTimer p; _scanning := b;
     _peripheral := _peripheral p; _influx := _influx p |}.

Definition set_peripheral (p : Plugin) (x : option Peripheral) : Plugin :=
  {| _aqService := _aqService p; _co2Service := _co2Service p;
     _humidityService := _humidityService p; _tempService := _tempService p;
     _lastState := _lastState p; _mainTimer := _mainTimer p; _scanning := _scanning p;
     _peripheral := x; _influx := _influx p |}.

(** The fields as the constructor leaves them. *)
Definition constructor (config : Config) : Plugin :=
  {| _aqService := negb (disableAQ config);
     _co2Service := negb (disableCO2 config);
     _humidityService := negb (disableHumidity config);
     _tempService := negb (disableTemp config);
     _lastState := LastState.init;
     _mainTimer := None;
     _scanning := false;
     _peripheral := None;
     _influx := truthy (influxURL config) && truthy (influxToken config)
                && truthy (influxOrg config) && truthy (influxBucket config) |}.

Inductive Level := debug | info | warn | error.

Inductive Characteristic :=
| AirQuality
| VOCDensity
| CarbonDioxideLevel
| CurrentRelativeHumidity
| CurrentTemperature.

(** The closures handed to [globalQueue.add]. *)
Inductive Task := MainTask | ScanTask | ScanThenMainTask.

Inductive Callback :=
| AddToQueue (t : Task)
| CallMain
| ScanTimedOut
| ResolveScan.

Inductive TimerRef := MainTimerRef | ScanTimeoutRef | ConnectTimeoutRef.

(** One entry per call, in the order in which the calls are made, by
    [main] itself or by a side of one of its races.  [Sleep] is a [sleep]
    that [main] itself awaits (the sleeps inside the races are their
    timers); [Disconnect] is a call of [peri.disconnectAsync()], made
    directly or through the helper [disconnect], whose own catch-and-log of
    a rejection belongs to that call. *)
Inductive Event :=
| Log (l : Level) (msg : string)
| ClearTimeout (r : TimerRef)
| SetTimeout (d : Delay) (cb : Callback)
| QueueAdd (t : Task)
| Sleep (ms : Z)
| Connect
| CancelConnect
| Disconnect
| UpdateRssi
| DiscoverCharacteristics
| ReadCharacteristic
| StartScanning
| StopScanning
| OnDiscover
| RemoveDiscoverListener
| Invoke (cb : Callback)
| UpdateValue (c : Characteristic) (v : Q)
| WritePoint (measurement : string) (fields : list (string * Q))
| Flush.

Definition isPublisherEvent (e : Event) : bool :=
  match e with
  | UpdateValue _ _ => true
  | _ => false
  end.

Definition isTelemetryEvent (e : Event) : bool :=
  match e with
  | WritePoint _ _ | Flush => true
  | _ => false
  end.

(** ** Statement sequencing with early [return] and rejection *)

Inductive Outcome (A : Type) :=
| Next (a : A)
| Returned
| Thrown.
Arguments Next {A} a.
Arguments Returned {A}.
Arguments Thrown {A}.

Definition M (A : Type) : Type := Plugin -> Outcome A * Plugin * list Event.

Definition ret {A} (a : A) : M A := fun p => (Next a, p, []).

Definition bind {A B} (m : M A) (k : A -> M B) : M B :=
  fun p =>
    match m p with
    | (Next a, p1, t1) =>
        match k a p1 with
        | (o, p2, t2) => (o, p2, t1 ++ t2)
        end
    | (Returned, p1, t1) => (Returned, p1, t1)
    | (Thrown, p1, t1) => (Thrown, p1, t1)
    end.

Declare Scope js_scope.
Delimit Scope js_scope with js.
Notation "x <- m ;; k" := (bind m (fun x => k))
  (at level 61, m at next level, right associativity) : js_scope.
Notation "m ;; k" := (bind m (fun _ => k))
  (at level 61, right associativity) : js_scope.
Open Scope js_scope.

Definition this : M Plugin := fun p => (Next p, p, []).
Definition assign (f : Plugin -> Plugin) : M unit := fun p => (Next tt, f p, []).
Definition emit (e : Event) : M unit := fun p => (Next tt, p, [e]).
Definition emits (es : list Event) : M unit := fun p => (Next tt, p, es).
Definition return_ {A} : M A := fun p => (Returned, p, []).
Definition throw {A} : M A := fun p => (Thrown, p, []).
Definition when (b : bool) (m : M unit) : M unit := if b then m else ret tt.

(** ** The publish block of [main] *)

Definition Zneq (a b : Z) : bool := negb (a =? b).
Definition Qneq (a b : Q) : bool := negb (Qeq_bool a b).

Section Publish.
(** The inline air-quality chain; the two copies of the file differ in it. *)
Variable classify : Q -> Z -> Z -> Z -> Z.

Definition publishAQ (r : Reading) : M unit :=
  p <- this ;;
  when (_aqService p)
    (let aq := classify (humidity r) (radonStAvg r) (co2 r) (voc r) in
     when (Zneq aq (LastState.aq (_lastState p))
           || Zneq (voc r) (LastState.voc (_lastState p)))
       (assign (fun p => set_lastState p
                  (LastState.set_aq_voc (_lastState p) aq (voc r))) ;;
        emit (UpdateValue AirQuality (inject_Z aq)) ;;
        emit (UpdateValue VOCDensity (inject_Z (voc r))))).

Definition publishCO2 (r : Reading) : M unit :=
  p <- this ;;
  when (_co2Service p)
    (when (Zneq (co2 r) (LastState.co2 (_lastState p)))
       (assign (fun p => set_lastState p (LastState.set_co2 (_lastState p) (co2 r))) ;;
        emit (UpdateValue CarbonDioxideLevel (inject_Z (co2 r))))).

Definition publishHumidity (r : Reading) : M unit :=
  p <- this ;;
  when (_humidityService p)
    (when (Qneq (humidity r) (LastState.humidity (_lastState p)))
       (assign (fun p => set_lastState p
                  (LastState.set_humidity (_lastState p) (humidity r))) ;;
        emit (UpdateValue CurrentRelativeHumidity (humidity r)))).

Definition publishTemp (r : Reading) : M unit :=
  p <- this ;;
  when (_tempService p)
    (when (Qneq (temp r) (LastState.temp (_lastState p)))
       (assign (fun p => set_lastState p (LastState.set_temp (_lastState p) (temp r))) ;;
        emit (UpdateValue CurrentTemperature (temp r)))).

Definition publish (r : Reading) : M unit :=
  publishAQ r ;;
  publishCO2 r ;;
  publishHumidity r ;;
  publishTemp r.
End Publish.

(** The InfluxDB block: one point, written and flushed inside [try]. *)
Definition pointOf (peri_rssi : Z) (r : Reading) : list (string * Q) :=
  [ ("rssi"%string, inject_Z peri_rssi);
    ("humidity"%string, humidity r);
    ("radonStAvg"%string, inject_Z (radonStAvg r));
    ("radonLtAvg"%string, inject_Z (radonLtAvg r));
    ("temp"%string, temp r);
    ("pressure"%string, pressure r);
    ("co2"%string, inject_Z (co2 r));
    ("voc"%string, inject_Z (voc r)) ].

Definition isSentinel (r : Reading) : bool :=
  (co2 r =? 0xFFFF) || (voc r =? 0xFFFF).

(** ** What the radio and the sinks answer during one call *)

Inductive NobleState := poweredOn | poweredOff | otherNobleState.

Inductive PeripheralState :=
| disconnected
| connecting
| connected
| disconnecting
| errorState.

(** When the side of a race that [main] no longer waits for makes its
    calls: before [main] starts its 3 s back-off, during the back-off, or
    after [main] has returned. *)
Inductive Period := BeforeBackoff | DuringBackoff | AfterReturn.

Definition samePeriod (a b : Period) : bool :=
  match a, b with
  | BeforeBackoff, BeforeBackoff
  | DuringBackoff, DuringBackoff
  | AfterReturn, AfterReturn => true
  | _, _ => false
  end.

(** What [connectAsync] does after the 3 s timer has fired; a late
    rejection runs the connect side's [catch] in the given period, a late
    success sets [done] once [main] has tested it. *)
Inductive LateConnect := StillPending | LateRejected (p : Period) | LateResolved.

(** The cleanup [disconnect()] of a rejected connect, against the same
    timer: over before the timer fires, which then fires while [main] backs
    off ([done] is still false), or still awaited when it fires. *)
Inductive Cleanup :=
| CleanupInTime (cancelThrows : bool)
| CleanupOverran (cancelThrows : bool).

(** The first [Promise.race]: which side settles first and what [done] is
    when [main] tests it. *)
Inductive ConnectRace :=
| ConnectResolved
| ConnectRejected (c : Cleanup)
| ConnectTimedOut (cancelThrows : bool) (late : LateConnect).

(** The second [Promise.race].  [ReadTimedOut (Some buf)] is the read that
    finishes while the timer side still awaits its [disconnect()]. *)
Inductive ReadRace :=
| ReadInTime (buf : Buffer)
| ReadRejected
| ReadTimedOut (late : option Buffer)
| ReadTimedOutThenRejected.

(** When the reading side gets to call [readAsync], that is, when the
    discovery resolves: before the 3 s timer, later, or never. *)
Inductive ReadCall := NeverCalled | CalledInTime | CalledLate (p : Period).

(** What the sides of the races do beside what decides them.  [lateBuffer]
    is the period in which a read that lost the race completes after all, so
    that the reading side goes on to its [disconnect()]; [flushReached] tells
    a failing InfluxDB block apart: [writePoint] returned and [flush]
    rejected, or [writePoint] itself threw. *)
Record Background := {
  readCall : ReadCall;
  lateBuffer : option Period;
  flushReached : bool
}.

Record Env := {
  host : ByteOrder;
  nobleState : NobleState;
  periState : PeripheralState;
  staleDisconnectRejects : bool;
  staleCancelThrows : bool;
  connectRace : ConnectRace;
  readRace : ReadRace;
  closingDisconnectRejects : bool;
  influxThrows : bool;
  background : Background
}.

Definition isPoweredOn (s : NobleState) : bool :=
  match s with poweredOn => true | _ => false end.

(** ** [main] of src/index.ts *)

Definition armMainTimer (d : Delay) : M unit :=
  assign (fun p => set_mainTimer p (Some d)) ;;
  emit (SetTimeout d (AddToQueue MainTask)).

Definition freqOf (config : Config) : Delay :=
  match frequency config with
  | Some f => Ms (1000 * Z.max 60 f)
  | None => NaNDelay
  end.

(** The [if (peri.state !== "disconnected")] block. *)
Definition reconcile (env : Env) : M unit :=
  match periState env with
  | disconnected => ret tt
  | st =>
      emit (Log warn "Peripheral state is") ;;
      match st with
      | connected =>
          emit Disconnect ;;
          if staleDisconnectRejects env then throw else ret tt
      | connecting =>
          emit CancelConnect ;;
          if staleCancelThrows env then throw else ret tt
      | errorState =>
          assign (fun p => set_peripheral p None) ;;
          emit (Sleep (1000 * 3)) ;;
          emit (QueueAdd ScanTask) ;;
          emit CancelConnect ;;
          (if staleCancelThrows env then emit (Log error "") else emit Disconnect) ;;
          return_
      | _ => ret tt
      end
  end.

(** What the timer side of the first race does when it finds [done]
    false. *)
Definition timerArm (cancelThrows : bool) : list Event :=
  [Log warn "connect has timed out."; CancelConnect]
    ++ (if cancelThrows then [Log error ""] else []).

Definition timerSide (cancelThrows : bool) : M unit :=
  emits (timerArm cancelThrows).

(** The connect side's [catch], run by a rejection that comes in period
    [now]. *)
Definition lateCatch (late : LateConnect) (now : Period) : list Event :=
  match late with
  | LateRejected p =>
      if samePeriod p now then [Log error ""; Disconnect] else []
  | _ => []
  end.

(** [await sleep(1000 * 3); globalQueue.add(...main...); return;] together
    with what the sides of the settled race call while [main] sleeps
    ([during]) and once it has returned ([after]). *)
Definition retryShortly {A} (during after : list Event) : M A :=
  emit (Sleep (1000 * 3)) ;;
  emits during ;;
  emit (QueueAdd MainTask) ;;
  emits after ;;
  return_.

(** The block around the first race; it ends with [done === false] tested.
    The timer of the race is never cancelled: after a rejection that was
    cleaned up in time it fires during the back-off and, [done] being false,
    warns and cancels. *)
Definition connectPhase (env : Env) : M unit :=
  emit Connect ;;
  match connectRace env with
  | ConnectResolved => ret tt
  | ConnectRejected c =>
      emit (Log error "") ;;
      emit Disconnect ;;
      match c with
      | CleanupInTime cancelThrows => retryShortly (timerArm cancelThrows) []
      | CleanupOverran cancelThrows =>
          timerSide cancelThrows ;;
          retryShortly [] []
      end
  | ConnectTimedOut cancelThrows late =>
      timerSide cancelThrows ;;
      emits (lateCatch late BeforeBackoff) ;;
      retryShortly (lateCatch late DuringBackoff) (lateCatch late AfterReturn)
  end.

(** The reading side's [readAsync] call, when it falls where [now] says. *)
Definition readCalled (env : Env) (now : ReadCall) : list Event :=
  match readCall (background env), now with
  | CalledInTime, CalledInTime => [ReadCharacteristic]
  | CalledLate p, CalledLate q =>
      if samePeriod p q then [ReadCharacteristic] else []
  | _, _ => []
  end.

(** Whether [readAsync] has been called by the end of period [now]. *)
Definition calledBy (env : Env) (now : Period) : bool :=
  match readCall (background env), now with
  | NeverCalled, _ => false
  | CalledInTime, _ => true
  | CalledLate BeforeBackoff, _ => true
  | CalledLate DuringBackoff, BeforeBackoff => false
  | CalledLate DuringBackoff, _ => true
  | CalledLate AfterReturn, AfterReturn => true
  | CalledLate AfterReturn, _ => false
  end.

(** The reading side's [disconnect()] after a read that completes in
    period [now], too late for [main]. *)
Definition lateDisconnect (env : Env) (now : Period) : list Event :=
  match lateBuffer (background env) with
  | Some p => if samePeriod p now && calledBy env now then [Disconnect] else []
  | None => []
  end.

(** The block around the second race.  The reading side calls [readAsync]
    once the discovery has resolved, in time or not; its timer side finds
    [buf] unset also after a rejection that has already settled the race.
    A race that delivers a buffer has made the call: where [readCall] says
    otherwise, the call is placed where the buffer needs it. *)
Definition readPhase (env : Env) : M Buffer :=
  emit UpdateRssi ;;
  emit DiscoverCharacteristics ;;
  match readRace env with
  | ReadInTime buf =>
      emit ReadCharacteristic ;;
      emit Disconnect ;;
      ret buf
  | ReadRejected =>
      emits (readCalled env CalledInTime) ;;
      emit (Log warn "get collection has timed out.") ;;
      emit Disconnect ;;
      throw
  | ReadTimedOut late =>
      emits (readCalled env CalledInTime) ;;
      emit (Log warn "get collection has timed out.") ;;
      emit Disconnect ;;
      match late with
      | Some buf =>
          emits (match readCall (background env) with
                 | CalledInTime => []
                 | _ => [ReadCharacteristic]
                 end) ;;
          emit Disconnect ;;
          ret buf
      | None =>
          emits (readCalled env (CalledLate BeforeBackoff)) ;;
          retryShortly
            (readCalled env (CalledLate DuringBackoff)
               ++ lateDisconnect env DuringBackoff)
            (readCalled env (CalledLate AfterReturn)
               ++ lateDisconnect env AfterReturn)
      end
  | ReadTimedOutThenRejected =>
      emits (readCalled env CalledInTime) ;;
      emit (Log warn "get collection has timed out.") ;;
      emit Disconnect ;;
      emits (readCalled env (CalledLate BeforeBackoff)) ;;
      throw
  end.

Section Tail.
Variable classify : Q -> Z -> Z -> Z -> Z.

Definition influxBlock (env : Env) (peri : Peripheral) (r : Reading) : M unit :=
  p <- this ;;
  when (_influx p)
    (emit (Log info "write points to InfluxDB") ;;
     emit (WritePoint "air-quality" (pointOf (rssi peri) r)) ;;
     (if influxThrows env && negb (flushReached (background env))
      then emit (Log error "")
      else emit Flush ;;
           when (influxThrows env) (emit (Log error ""))) ;;
     emit (Log debug "point:")).

(** From [struct.unpack] to the end of [main]. *)
Definition afterRead (env : Env) (peri : Peripheral) (buf : Buffer) : M unit :=
  match decodePayload (host env) buf with
  | None => throw
  | Some r =>
      emit (Log info "rssi data") ;;
      (if isSentinel r
       then emit (Log warn "sensor value is invalid.") ;; return_
       else ret tt) ;;
      publish classify r ;;
      influxBlock env peri r ;;
      emit (Sleep (1000 * 3))
  end.
End Tail.

Definition main (config : Config) (env : Env) : M unit :=
  p <- this ;;
  when (match _mainTimer p with Some _ => true | None => false end)
       (emit (ClearTimeout MainTimerRef)) ;;
  if negb (isPoweredOn (nobleState env)) then
    emit (Log warn "Bluetooth LE Power is off. will retry in 10 seconds...") ;;
    armMainTimer (Ms (1000 * 10)) ;;
    return_
  else
    match _peripheral p with
    | None =>
        (if _scanning p then return_ else ret tt) ;;
        emit (QueueAdd ScanThenMainTask) ;;
        return_
    | Some peri =>
        armMainTimer (freqOf config) ;;
        reconcile env ;;
        emit (Log info "connect to") ;;
        connectPhase env ;;
        buf <- readPhase env ;;
        afterRead airQuality env peri buf
    end.

(** ** [scan] of src/index.ts *)

(** [parseInt(s, 10)] on an ASCII string: leading white space, an optional
    sign, then the longest run of decimal digits; [None] is NaN.  The result
    is only ever compared with a 32-bit serial, where the rounding of
    [parseInt] to a double changes nothing. *)
Definition isWhiteSpace (c : ascii) : bool :=
  let n := nat_of_ascii c in
  ((n =? 9) || (n =? 10) || (n =? 11) || (n =? 12) || (n =? 13) || (n =? 32))%nat.

Definition digitOf (c : ascii) : option Z :=
  let n := Z.of_nat (nat_of_ascii c) in
  if (48 <=? n) && (n <=? 57) then Some (n - 48) else None.

Fixpoint skipWhiteSpace (s : string) : string :=
  match s with
  | String c rest => if isWhiteSpace c then skipWhiteSpace rest else s
  | EmptyString => s
  end.

Fixpoint digitsOf (s : string) (acc : option Z) : option Z :=
  match s with
  | String c rest =>
      match digitOf c with
      | Some d => digitsOf rest (Some (10 * match acc with Some a => a | None => 0 end + d))
      | None => acc
      end
  | EmptyString => acc
  end.

Definition parseInt (s : option string) : option Z :=
  match s with
  | None => None
  | Some s =>
      match skipWhiteSpace s with
      | String c rest =>
          if Ascii.eqb c "-" then option_map Z.opp (digitsOf rest None)
          else if Ascii.eqb c "+" then digitsOf rest None
          else digitsOf (String c rest) None
      | EmptyString => None
      end
  end.

(** [parseInt(this.config.serialNumber, 10) === serialNumber] *)
Definition serialMatches (config : Config) (serial : Z) : bool :=
  match parseInt (serialNumber config) with
  | Some n => n =? serial
  | None => false
  end.

Definition manufacturerDataOf (peripheral : Peripheral) : option Buffer :=
  match advertisement peripheral with
  | Some a => manufacturerData a
  | None => None
  end.

Definition fin : M unit :=
  assign (fun p => set_scanning p false) ;;
  emit (ClearTimeout ScanTimeoutRef) ;;
  emit StopScanning ;;
  emit RemoveDiscoverListener ;;
  emit (SetTimeout (Ms (1000 * 3)) ResolveScan).

Definition onDiscover (config : Config) (h : ByteOrder) (peripheral : Peripheral)
  : M unit :=
  match manufacturerDataOf peripheral with
  | Some md =>
      when (6 <? Z.of_nat (List.length md))
        (match unpack h "<HLH" md with
         | None => throw
         | Some deviceInfo =>
             when (field deviceInfo 0 =? 0x0334)
               (let serial := field deviceInfo 1 in
                when (serialMatches config serial)
                  (emit (Log info "found") ;;
                   assign (fun p => set_peripheral p (Some peripheral)) ;;
                   fin))
         end)
  | None => ret tt
  end.

(** The executor passed to [new Promise]; [Returned] is its bare [return],
    which leaves the promise unsettled, and after [Next] the promise settles
    only through the [ResolveScan] timer of [fin]. *)
Definition scan : M unit :=
  p <- this ;;
  (if _scanning p then return_ else ret tt) ;;
  assign (fun p => set_scanning p true) ;;
  emit (Log info "scanning...") ;;
  emit (SetTimeout (Ms (1000 * 50)) ScanTimedOut) ;;
  emit OnDiscover ;;
  emit StartScanning.

Definition scanTimedOut : M unit :=
  emit (Log warn "scan has timed out.") ;;
  fin.

(** ** The other copy of the file, src/unnamed/part_000 *)

Module Part000.

Definition co2Step (aq c : Z) : Z :=
  if c >=? 1000 then Z.max aq 5
  else if c >=? 800 then Z.max aq 3
  else Z.max aq 2.

Definition airQuality (h : Q) (radon c v : Z) : Z :=
  let aq := 0 in
  let aq := humidityStep h in
  let aq := radonStep aq radon in
  let aq := co2Step aq c in
  let aq := vocStep aq v in
  aq.

(** From [struct.unpack] to the end of this copy's [main]: no sentinel
    test, the disconnect after the publish block, InfluxDB outside [try]. *)
Definition afterRead (env : Env) (peri : Peripheral) (buf : Buffer) : M unit :=
  match decodePayload (host env) buf with
  | None => throw
  | Some r =>
      emit (Log info "rssi data") ;;
      publish airQuality r ;;
      emit (ClearTimeout ConnectTimeoutRef) ;;
      emit Disconnect ;;
      (if closingDisconnectRejects env
       then emit (Log error "") ;; return_
       else ret tt) ;;
      p <- this ;;
      when (_influx p)
        (emit (Log info "write points to InfluxDB") ;;
         emit (WritePoint "air-quality" (pointOf (rssi peri) r)) ;;
         (if influxThrows env && negb (flushReached (background env))
          then throw else ret tt) ;;
         emit Flush ;;
         (if influxThrows env then throw else ret tt) ;;
         emit (Log debug "point:"))
  end.

Definition fin : M unit :=
  assign (fun p => set_scanning p false) ;;
  emit (ClearTimeout ScanTimeoutRef) ;;
  emit StopScanning ;;
  emit RemoveDiscoverListener.

Definition onDiscover (config : Config) (h : ByteOrder) (peripheral : Peripheral)
  : M unit :=
  match manufacturerDataOf peripheral with
  | Some md =>
      when (6 <? Z.of_nat (List.length md))
        (match unpack h "<HLH" md with
         | None => throw
         | Some deviceInfo =>
             when (field deviceInfo 0 =? 0x0334)
               (let serial := field deviceInfo 1 in
                when (serialMatches config serial)
                  (emit (Log info "found") ;;
                   assign (fun p => set_peripheral p (Some peripheral)) ;;
                   fin ;;
                   emit (Invoke CallMain)))
         end)
  | None => ret tt
  end.

(** The [async] method; [Returned] is its early [return]. *)
Definition scan : M unit :=
  p <- this ;;
  (if _scanning p then return_ else ret tt) ;;
  assign (fun p => set_scanning p true) ;;
  emit (Log info "scanning...") ;;
  emit (SetTimeout (Ms (1000 * 50)) ScanTimedOut) ;;
  emit OnDiscover ;;
  emit StartScanning.

End Part000.

(** ** The operation serializer, [globalQueue = new Queue(1, Infinity)] *)

Module Serializer.

(** Modelled from the spec: the Operation Serializer of section 4.3, the
    [promise-queue] package whose code is not under src/ (only its
    construction and the [globalQueue.add] calls are).  A queue holds the
    admitted generators that have not started and counts the promises in
    flight against its limit; tasks are named by their admission number. *)
Record Queue := {
  maxPendingPromises : nat;
  maxQueuedPromises : option nat;
  pendingPromises : nat;
  queue : list nat
}.

Definition new (maxPending : nat) (maxQueued : option nat) : Queue :=
  {| maxPendingPromises := maxPending;
     maxQueuedPromises := maxQueued;
     pendingPromises := 0;
     queue := [] |}.

(** [None] is [Infinity]. *)
Definition globalQueue : Queue := new 1 None.

Inductive Obs :=
| Started (id : nat)
| Settled (id : nat) (ok : bool)
| Refused (id : nat).

(** Modelled from the spec: starting the oldest waiting task when the
    concurrency limit allows it (section 4.3: FIFO admission order,
    concurrency limit 1). *)
Definition dequeue (q : Queue) : Queue * list Obs :=
  if (maxPendingPromises q <=? pendingPromises q)%nat then (q, [])
  else
    match queue q with
    | [] => (q, [])
    | item :: rest =>
        ({| maxPendingPromises := maxPendingPromises q;
            maxQueuedPromises := maxQueuedPromises q;
            pendingPromises := S (pendingPromises q);
            queue := rest |},
         [Started item])
    end.

Definition limitReached (q : Queue) : bool :=
  match maxQueuedPromises q with
  | Some n => (n <=? List.length (queue q))%nat
  | None => false
  end.

(** Modelled from the spec: [submit(task)] of section 4.3, admission at
    the tail of the queue followed by an attempt to start. *)
Definition add (id : nat) (q : Queue) : Queue * list Obs :=
  if limitReached q then (q, [Refused id])
  else
    dequeue {| maxPendingPromises := maxPendingPromises q;
               maxQueuedPromises := maxQueuedPromises q;
               pendingPromises := pendingPromises q;
               queue := queue q ++ [id] |}.

(** Modelled from the spec: what the serializer does when the running
    task's promise settles, fulfilled ([ok = true]) or rejected: the slot is
    released and the next waiting task is started (section 4.3: a failing
    task does not block later tasks). *)
Definition settle (id : nat) (ok : bool) (q : Queue) : Queue * list Obs :=
  let '(q', o) :=
    dequeue {| maxPendingPromises := maxPendingPromises q;
               maxQueuedPromises := maxQueuedPromises q;
               pendingPromises := pred (pendingPromises q);
               queue := queue q |} in
  (q', Settled id ok :: o).

(** The queue with its surroundings: the tasks in flight, the next
    admission number and everything observed so far, oldest first. *)
Record Sys := {
  q : Queue;
  inflight : list nat;
  next : nat;
  log : list Obs
}.

Definition init : Sys :=
  {| q := globalQueue; inflight := []; next := 0; log := [] |}.

Definition startedIn (o : list Obs) : list nat :=
  flat_map (fun e => match e with Started id => [id] | _ => [] end) o.

Definition settledIn (o : list Obs) : list nat :=
  flat_map (fun e => match e with Settled id _ => [id] | _ => [] end) o.

(** What a caller or the environment does next: submit one more task, or
    let the oldest task in flight finish, successfully or not. *)
Inductive Action := Submit | Finish (ok : bool).

Definition step (s : Sys) (a : Action) : Sys :=
  match a with
  | Submit =>
      let '(q', o) := add (next s) (q s) in
      {| q := q'; inflight := inflight s ++ startedIn o;
         next := S (next s); log := log s ++ o |}
  | Finish ok =>
      match inflight s with
      | [] => s
      | id :: others =>
          let '(q', o) := settle id ok (q s) in
          {| q := q'; inflight := others ++ startedIn o;
             next := next s; log := log s ++ o |}
      end
  end.

Definition exec (acts : list Action) : Sys := fold_left step acts init.

(** A log in which no two tasks overlap: a task starts only when none is
    running, and only the running task settles. *)
Fixpoint exclusive (running : option nat) (l : list Obs) : bool :=
  match l with
  | [] => true
  | Started id :: l' =>
      match running with
      | None => exclusive (Some id) l'
      | Some _ => false
      end
  | Settled id _ :: l' =>
      match running with
      | Some r => (r =? id)%nat && exclusive None l'
      | None => false
      end
  | Refused _ :: l' => exclusive running l'
  end.

(** The log of tasks [from], [from + 1], ... run one after the other with
    the given results. *)
Fixpoint oneByOne (from : nat) (oks : list bool) : list Obs :=
  match oks with
  | [] => []
  | ok :: oks' => Started from :: Settled from ok :: oneByOne (S from) oks'
  end.

Definition submits (acts : list Action) : nat :=
  List.length (filter (fun a => match a with Submit => true | _ => false end) acts).

(** The two shapes of a reachable system, [oks] being the results of the
    tasks that have finished: nothing running and nothing waiting, or task
    [length oks] running and all later admissions waiting in order. *)
Definition Idle (s : Sys) (oks : list bool) : Prop :=
  inflight s = []
  /\ q s = globalQueue
  /\ next s = List.length oks
  /\ log s = oneByOne 0 oks.

Definition Busy (s : Sys) (oks : list bool) : Prop :=
  inflight s = [List.length oks]
  /\ q s = {| maxPendingPromises := 1;
              maxQueuedPromises := None;
              pendingPromises := 1;
              queue := seq (S (List.length oks)) (next s - S (List.length oks)) |}
  /\ (List.length oks < next s)%nat
  /\ log s = oneByOne 0 oks ++ [Started (List.length oks)].

End Serializer.

(** ** Vocabulary of the statements *)

(** The sub-scores as section 4.2 of the spec words them. *)
Definition humiditySubScore (h : Q) : Z :=
  if Qgeb h 70 || Qltb h 25 then 5
  else if Qgeb h 60 || Qltb h 30 then 3
  else 2.

Definition radonSubScore (radon : Z) : Z :=
  if radon >=? 150 then 5 else if radon >=? 100 then 3 else 2.

Definition co2SubScore (c : Z) : Z :=
  if c >=? 1000 then 5 else if c >=? 800 then 3 else 2.

Definition vocSubScore (v : Z) : Z :=
  if v >=? 2000 then 5 else if v >=? 250 then 3 else 2.

(** The CO2 bands of src/index.ts, read off the constants of its chain. *)
Definition co2SubScoreIndex (c : Z) : Z :=
  if c >=? 1500 then 5
  else if c >=? 1200 then 4
  else if c >=? 800 then 3
  else 2.

Definition max4 (a b c d : Z) : Z := Z.max (Z.max (Z.max a b) c) d.

(** Byte [i] of a buffer and the 16- and 32-bit words that start there. *)
Definition byteAt (buf : Buffer) (i : nat) : Z := u8 (nth i buf x00).

Definition wordAt (o : ByteOrder) (buf : Buffer) (i : nat) : Z :=
  match o with
  | LittleEndian => byteAt buf i + 256 * byteAt buf (S i)
  | BigEndian => byteAt buf (S i) + 256 * byteAt buf i
  end.

Definition le32At (buf : Buffer) (i : nat) : Z :=
  byteAt buf i + 256 * byteAt buf (i + 1) + 65536 * byteAt buf (i + 2)
  + 16777216 * byteAt buf (i + 3).

(** The values a trace hands to one characteristic, in order. *)
Definition updatesOf (c : Characteristic) (t : list Event) : list Q :=
  flat_map (fun e =>
              match e with
              | UpdateValue c' v =>
                  match c, c' with
                  | AirQuality, AirQuality
                  | VOCDensity, VOCDensity
                  | CarbonDioxideLevel, CarbonDioxideLevel
                  | CurrentRelativeHumidity, CurrentRelativeHumidity
                  | CurrentTemperature, CurrentTemperature => [v]
                  | _, _ => []
                  end
              | _ => []
              end) t.

Definition quiet (t : list Event) : Prop :=
  existsb isPublisherEvent t = false /\ existsb isTelemetryEvent t = false.

(** The environments in which [main] gets past the stale-state block. *)
Definition reconcilePasses (env : Env) : bool :=
  match periState env with
  | disconnected | disconnecting => true
  | connected => negb (staleDisconnectRejects env)
  | connecting => negb (staleCancelThrows env)
  | errorState => false
  end.

(** The buffer the second race leaves in [buf], if any. *)
Definition bufferRead (env : Env) : option Buffer :=
  match readRace env with
  | ReadInTime buf => Some buf
  | ReadTimedOut late => late
  | _ => None
  end.

(** A 20-byte payload: humidity byte 140, radon words 12 and 9,
    temperature word 2500, pressure word 50000, co2 800, voc 120. *)
Definition samplePayload : Buffer :=
  [x01; x8c; x00; x00; x0c; x00; x09; x00; xc4; x09; x50; xc3;
   x20; x03; x78; x00; x00; x00; x00; x00]%byte.

(** Manufacturer data of a Wave Plus with serial 2930012345. *)
Definition sampleManufacturerData : Buffer :=
  [x34; x03; xb9; x70; xa4; xae; x09; x00]%byte.

Definition samplePeripheral : Peripheral :=
  {| uuid := "c4be";
     advertisement := Some {| manufacturerData := Some sampleManufacturerData |};
     rssi := -61 |}.

Definition sampleConfig : Config :=
  {| name := "My Wave Plus";
     serialNumber := Some "2930012345"%string;
     frequency := Some 60;
     disableAQ := false;
     disableCO2 := false;
     disableHumidity := false;
     disableTemp := false;
     influxURL := Some "http://localhost:8086"%string;
     influxToken := Some "token"%string;
     influxOrg := Some "home"%string;
     influxBucket := Some "air"%string |}.

(** A call of [onDiscover] found the device when it left a trace or
    changed the plugin's fields. *)
Definition foundDevice (p : Plugin) (res : Outcome unit * Plugin * list Event) : Prop :=
  snd res <> [] \/ snd (fst res) <> p.

(** Whether the publish block finds a facet enabled and its value changed. *)
Definition changedAQ (classify : Q -> Z -> Z -> Z -> Z) (r : Reading) (p : Plugin)
  : bool :=
  _aqService p
  && (Zneq (classify (humidity r) (radonStAvg r) (co2 r) (voc r))
           (LastState.aq (_lastState p))
      || Zneq (voc r) (LastState.voc (_lastState p))).

Definition changedCO2 (r : Reading) (p : Plugin) : bool :=
  _co2Service p && Zneq (co2 r) (LastState.co2 (_lastState p)).

Definition changedHumidity (r : Reading) (p : Plugin) : bool :=
  _humidityService p && Qneq (humidity r) (LastState.humidity (_lastState p)).

Definition changedTemp (r : Reading) (p : Plugin) : bool :=
  _tempService p && Qneq (temp r) (LastState.temp (_lastState p)).

(** A payload whose co2 word is the sentinel 0xFFFF. *)
Definition sentinelPayload : Buffer :=
  [x01; x8c; x00; x00; x0c; x00; x09; x00; xc4; x09; x50; xc3;
   xff; xff; x78; x00; x00; x00; x00; x00]%byte.

(** A cycle in which the radio is on, the peripheral idle, the connect in
    time and the read in time. *)
Definition sampleEnv (buf : Buffer) : Env :=
  {| host := LittleEndian;
     nobleState := poweredOn;
     periState := disconnected;
     staleDisconnectRejects := false;
     staleCancelThrows := false;
     connectRace := ConnectResolved;
     readRace := ReadInTime buf;
     closingDisconnectRejects := false;
     influxThrows := false;
     background := {| readCall := CalledInTime; lateBuffer := None;
                      flushReached := false |} |}.

(** The same cycle with a connect that is still pending after 3 s. *)
Definition timeoutEnv : Env :=
  {| host := LittleEndian;
     nobleState := poweredOn;
     periState := disconnected;
     staleDisconnectRejects := false;
     staleCancelThrows := false;
     connectRace := ConnectTimedOut false StillPending;
     readRace := ReadRejected;
     closingDisconnectRejects := false;
     influxThrows := false;
     background := {| readCall := NeverCalled; lateBuffer := None;
                      flushReached := false |} |}.

(** The plugin once [onDiscover] has cached the sample peripheral. *)
Definition samplePlugin : Plugin :=
  set_peripheral (constructor sampleConfig) (Some samplePeripheral).

(** ** [getServices] *)

Inductive ServiceKind :=
| AccessoryInformation
| AirQualitySensor
| CarbonDioxideSensor
| HumiditySensor
| TemperatureSensor.

(** The array [getServices] returns, built by its four [push] calls. *)
Definition getServices (p : Plugin) : list ServiceKind :=
  let services := [AccessoryInformation] in
  let services := if _aqService p then services ++ [AirQualitySensor] else services in
  let services := if _co2Service p then services ++ [CarbonDioxideSensor] else services in
  let services := if _humidityService p then services ++ [HumiditySensor] else services in
  let services := if _tempService p then services ++ [TemperatureSensor] else services in
  services.

(** The calls that reach the radio. *)
Definition isRadioEvent (e : Event) : bool :=
  match e with
  | Connect | CancelConnect | Disconnect | UpdateRssi | DiscoverCharacteristics
  | ReadCharacteristic | StartScanning | StopScanning => true
  | _ => false
  end.

(** [setTimeout] calls whose callback queues [main]. *)
Definition armsMainTimer (e : Event) : bool :=
  match e with
  | SetTimeout _ (AddToQueue MainTask) => true
  | _ => false
  end.

Definition isConnect (e : Event) : bool :=
  match e with
  | Connect => true
  | _ => false
  end.

Definition queuesScan (e : Event) : bool :=
  match e with
  | QueueAdd ScanTask | QueueAdd ScanThenMainTask => true
  | _ => false
  end.

(** What the InfluxDB block of src/index.ts leaves in the trace. *)
Definition influxTrace (enabled : bool) (env : Env) (peri : Peripheral) (r : Reading)
  : list Event :=
  if enabled then
    [Log info "write points to InfluxDB";
     WritePoint "air-quality" (pointOf (rssi peri) r)]
      ++ (if influxThrows env && negb (flushReached (background env))
          then [Log error ""]
          else Flush :: (if influxThrows env then [Log error ""] else []))
      ++ [Log debug "point:"]
  else [].

(** Logging and the calls that cancel, close or read the link. *)
Definition isLinkEvent (e : Event) : bool :=
  match e with
  | Log _ _ | CancelConnect | Disconnect | ReadCharacteristic => true
  | _ => false
  end.

(** The [clearTimeout] with which [main] opens when a timer is recorded. *)
Definition clearTrace (p : Plugin) : list Event :=
  match _mainTimer p with
  | Some _ => [ClearTimeout MainTimerRef]
  | None => []
  end.

(** What the tail of [main] can leave in a trace. *)
Definition isSinkEvent (e : Event) : bool :=
  match e with
  | Log _ _ | UpdateValue _ _ | WritePoint _ _ | Flush | Sleep _ => true
  | _ => false
  end.

(** The calls after which [main] runs again: its timer, or a queued task
    that ends in [main]. *)
Definition schedulesMain (e : Event) : bool :=
  match e with
  | SetTimeout _ (AddToQueue MainTask)
  | QueueAdd MainTask | QueueAdd ScanThenMainTask => true
  | _ => false
  end.

Definition isCleanup (e : Event) : bool :=
  match e with
  | CancelConnect | Disconnect => true
  | _ => false
  end.

(** The environment [env] with another answer to the read. *)
Definition withReadRace (env : Env) (rr : ReadRace) : Env :=
  {| host := host env;
     nobleState := nobleState env;
     periState := periState env;
     staleDisconnectRejects := staleDisconnectRejects env;
     staleCancelThrows := staleCancelThrows env;
     connectRace := connectRace env;
     readRace := rr;
     closingDisconnectRejects := closingDisconnectRejects env;
     influxThrows := influxThrows env;
     background := background env |}.

(** The sink calls of a trace, in order. *)
Definition sinkCalls (t : list Event) : list Event :=
  filter (fun e => isPublisherEvent e || isTelemetryEvent e) t.

(** What the two sides of a failed connect call on the link. *)
Definition isTeardown (e : Event) : bool :=
  match e with
  | Log _ _ | CancelConnect | Disconnect => true
  | _ => false
  end.

Definition isRead (e : Event) : bool :=
  match e with
  | ReadCharacteristic => true
  | _ => false
  end.

(** What the reading side of the second race still calls once the timer
    side has warned: [readAsync], and [disconnect()] after a read. *)
Definition isReadSide (e : Event) : bool :=
  match e with
  | ReadCharacteristic | Disconnect => true
  | _ => false
  end.

(** What a late connect side can still call: its [catch] logs and
    disconnects. *)
Definition isLateNoise (e : Event) : bool :=
  match e with
  | Log _ _ | Disconnect => true
  | _ => false
  end.

(** What [main] calls before it connects: its timer calls, log lines and
    the stale-state block's cleanup. *)
Definition isPreamble (e : Event) : bool :=
  match e with
  | ClearTimeout _ | SetTimeout _ _ | Log _ _ | CancelConnect | Disconnect => true
  | _ => false
  end.

(** ** The air-quality chain *)

Lemma radonStep_max (aq radon : Z) : radonStep aq radon = Z.max aq (radonSubScore radon).
Proof.
  unfold radonStep, radonSubScore.
  destruct (radon >=? 150); [reflexivity|].
  destruct (radon >=? 100); reflexivity.
Qed.

Lemma vocStep_max (aq v : Z) : vocStep aq v = Z.max aq (vocSubScore v).
Proof.
  unfold vocStep, vocSubScore.
  destruct (v >=? 2000); [reflexivity|].
  destruct (v >=? 250); reflexivity.
Qed.

Lemma co2Step_max (aq c : Z) : co2Step aq c = Z.max aq (co2SubScoreIndex c).
Proof.
  unfold co2Step, co2SubScoreIndex.
  destruct (c >=? 1500); [reflexivity|].
  destruct (c >=? 1200); [reflexivity|].
  destruct (c >=? 800); reflexivity.
Qed.

Lemma part000_co2Step_max (aq c : Z) :
  Part000.co2Step aq c = Z.max aq (co2SubScore c).
Proof.
  unfold Part000.co2Step, co2SubScore.
  destruct (c >=? 1000); [reflexivity|].
  destruct (c >=? 800); reflexivity.
Qed.

Lemma humidityStep_range (h : Q) : 2 <= humidityStep h <= 5.
Proof.
  unfold humidityStep.
  destruct (Qgeb h 70 || Qltb h 25); [lia|].
  destruct (Qgeb h 60 || Qltb h 30); lia.
Qed.

Lemma radonSubScore_range (r : Z) : 2 <= radonSubScore r <= 5.
Proof.
  unfold radonSubScore. destruct (r >=? 150); [lia|]. destruct (r >=? 100); lia.
Qed.

Lemma vocSubScore_range (v : Z) : 2 <= vocSubScore v <= 5.
Proof.
  unfold vocSubScore. destruct (v >=? 2000); [lia|]. destruct (v >=? 250); lia.
Qed.

Lemma co2SubScore_range (c : Z) : 2 <= co2SubScore c <= 5.
Proof.
  unfold co2SubScore. destruct (c >=? 1000); [lia|]. destruct (c >=? 800); lia.
Qed.

Lemma co2SubScoreIndex_range (c : Z) : 2 <= co2SubScoreIndex c <= 5.
Proof.
  unfold co2SubScoreIndex.
  destruct (c >=? 1500); [lia|]. destruct (c >=? 1200); [lia|].
  destruct (c >=? 800); lia.
Qed.

Lemma airQuality_max4 (h : Q) (radon c v : Z) :
  airQuality h radon c v
  = max4 (humidityStep h) (radonSubScore radon) (co2SubScoreIndex c) (vocSubScore v).
Proof.
  unfold airQuality, max4.
  now rewrite vocStep_max, co2Step_max, radonStep_max.
Qed.

Lemma part000_airQuality_max4 (h : Q) (radon c v : Z) :
  Part000.airQuality h radon c v
  = max4 (humidityStep h) (radonSubScore radon) (co2SubScore c) (vocSubScore v).
Proof.
  unfold Part000.airQuality, max4.
  now rewrite vocStep_max, part000_co2Step_max, radonStep_max.
Qed.

(** C1, at the input where the claim fails on src/index.ts: with co2 = 1000
    the CO2 chain contributes 3, not 5, and a reading whose other scores are
    2 is classified 3. *)
Lemma co2_1000_scores_3 :
  co2Step 0 1000 = 3 /\ co2Step 0 1000 <> 5
  /\ airQuality (inject_Z 45) 0 1000 0 = 3.
Proof. repeat split; [discriminate]. Qed.

(** C1, amended: in src/index.ts the CO2 chain raises the running index to
    5 when co2 >= 1500, else to 4 when co2 >= 1200, else to 3 when
    co2 >= 800, else to 2 (so 799 gives at most 3, 800 exactly 3, 1000
    exactly 3 and 1500 exactly 5); the bands of the claim, 5 when
    co2 >= 1000, else 3 when co2 >= 800, else 2, are those of the copy
    src/unnamed/part_000, where 799 gives at most 3, 800 exactly 3 and 1000
    exactly 5. *)
Theorem co2_bands :
  (forall aq c, co2Step aq c = Z.max aq (co2SubScoreIndex c))
  /\ (forall c, co2Step 0 c = co2SubScoreIndex c)
  /\ co2Step 0 799 <= 3 /\ co2Step 0 800 = 3 /\ co2Step 0 1000 = 3
  /\ co2Step 0 1500 = 5
  /\ (forall aq c, Part000.co2Step aq c = Z.max aq (co2SubScore c))
  /\ (forall c, Part000.co2Step 0 c = co2SubScore c)
  /\ Part000.co2Step 0 799 <= 3 /\ Part000.co2Step 0 800 = 3
  /\ Part000.co2Step 0 1000 = 5.
Proof.
  split; [exact co2Step_max|].
  split.
  { intros c. rewrite co2Step_max. pose proof (co2SubScoreIndex_range c). lia. }
  split; [discriminate|].
  do 3 (split; [reflexivity|]).
  split; [exact part000_co2Step_max|].
  split.
  { intros c. rewrite part000_co2Step_max. pose proof (co2SubScore_range c). lia. }
  split; [discriminate|].
  split; reflexivity.
Qed.

(** C4: the index is the maximum of the four sub-scores, each evaluated on
    its own input, and lies in 0..5; it is never their sum.  Both copies of
    the file, each with its own CO2 bands. *)
Theorem airQuality_is_max_of_subscores :
  forall (h : Q) (radon c v : Z),
    airQuality h radon c v
    = max4 (humiditySubScore h) (radonSubScore radon)
           (co2SubScoreIndex c) (vocSubScore v)
    /\ 0 <= airQuality h radon c v <= 5
    /\ airQuality h radon c v
       <> humiditySubScore h + radonSubScore radon + co2SubScoreIndex c + vocSubScore v
    /\ Part000.airQuality h radon c v
       = max4 (humiditySubScore h) (radonSubScore radon)
              (co2SubScore c) (vocSubScore v)
    /\ 0 <= Part000.airQuality h radon c v <= 5
    /\ Part000.airQuality h radon c v
       <> humiditySubScore h + radonSubScore radon + co2SubScore c + vocSubScore v.
Proof.
  intros h radon c v.
  rewrite airQuality_max4, part000_airQuality_max4.
  change (humiditySubScore h) with (humidityStep h).
  pose proof (humidityStep_range h). pose proof (radonSubScore_range radon).
  pose proof (co2SubScoreIndex_range c). pose proof (co2SubScore_range c).
  pose proof (vocSubScore_range v).
  unfold max4. repeat split; lia.
Qed.

(** C10: the classifier never returns 0 or 1: every branch of every chain
    contributes at least 2.  Both copies of the file. *)
Theorem airQuality_at_least_2 :
  forall (h : Q) (radon c v : Z),
    2 <= airQuality h radon c v /\ 2 <= Part000.airQuality h radon c v.
Proof.
  intros h radon c v.
  rewrite airQuality_max4, part000_airQuality_max4.
  pose proof (humidityStep_range h). unfold max4. lia.
Qed.

(** ** The payload codec *)

Lemma unpack_payload_short (h : ByteOrder) (buf : Buffer) :
  (List.length buf < 20)%nat -> unpack h "BBBBHHHHHHHH" buf = None.
Proof.
  intros H.
  do 20 (destruct buf as [|? buf]; [destruct h; reflexivity|]).
  simpl in H. lia.
Qed.

Lemma unpack_payload_fields (h : ByteOrder) (buf : Buffer) :
  (20 <= List.length buf)%nat ->
  unpack h "BBBBHHHHHHHH" buf
  = Some [byteAt buf 0; byteAt buf 1; byteAt buf 2; byteAt buf 3;
          wordAt h buf 4; wordAt h buf 6; wordAt h buf 8; wordAt h buf 10;
          wordAt h buf 12; wordAt h buf 14; wordAt h buf 16; wordAt h buf 18].
Proof.
  intros H.
  do 20 (destruct buf as [|? buf]; [simpl in H; lia|]).
  destruct h; cbv [wordAt byteAt nth];
    cbn -[Z.add Z.mul u8]; rewrite ?Z.mul_0_r, ?Z.add_0_r; reflexivity.
Qed.

Lemma unpack_identity_short (h : ByteOrder) (md : Buffer) :
  (List.length md < 8)%nat -> unpack h "<HLH" md = None.
Proof.
  intros H.
  do 8 (destruct md as [|? md]; [reflexivity|]).
  simpl in H. lia.
Qed.

Lemma unpack_identity_fields (h : ByteOrder) (md : Buffer) :
  (8 <= List.length md)%nat ->
  unpack h "<HLH" md
  = Some [wordAt LittleEndian md 0; le32At md 2; wordAt LittleEndian md 6].
Proof.
  intros H.
  do 8 (destruct md as [|? md]; [simpl in H; lia|]).
  cbv [wordAt le32At byteAt nth Nat.add];
    cbn -[Z.add Z.mul u8]; rewrite ?Z.mul_0_r, ?Z.add_0_r.
  do 2 f_equal. f_equal. lia.
Qed.

Lemma decodePayload_accepted (h : ByteOrder) (buf : Buffer) :
  (20 <= List.length buf)%nat ->
  decodePayload h buf
  = Some (readingOf
            [byteAt buf 0; byteAt buf 1; byteAt buf 2; byteAt buf 3;
             wordAt h buf 4; wordAt h buf 6; wordAt h buf 8; wordAt h buf 10;
             wordAt h buf 12; wordAt h buf 14; wordAt h buf 16; wordAt h buf 18]).
Proof.
  intros H. unfold decodePayload. now rewrite unpack_payload_fields.
Qed.

Lemma decodePayload_rejected (h : ByteOrder) (buf : Buffer) :
  (List.length buf < 20)%nat -> decodePayload h buf = None.
Proof.
  intros H. unfold decodePayload. now rewrite unpack_payload_short.
Qed.

Lemma decoded_co2 (h : ByteOrder) (buf : Buffer) (r : Reading) :
  decodePayload h buf = Some r -> co2 r = wordAt h buf 12.
Proof.
  intros H.
  destruct (Nat.lt_ge_cases (List.length buf) 20) as [Hlt|Hge].
  - rewrite decodePayload_rejected in H by assumption. discriminate.
  - rewrite decodePayload_accepted in H by assumption. injection H as <-.
    cbn [readingOf co2 field nth]. apply Z.mul_1_r.
Qed.

(** C2, at the input where the claim fails: a buffer of 20 bytes, not 24,
    is decoded, here to 70 %rH, 25.00 C, 1000 hPa, 800 ppm and 120 ppb. *)
Lemma payload_of_20_bytes_is_accepted :
  List.length samplePayload = 20%nat
  /\ List.length samplePayload <> 24%nat
  /\ decodePayload LittleEndian samplePayload
     = Some {| humidity := inject_Z 140 / 2; radonStAvg := 12; radonLtAvg := 9;
               temp := inject_Z 2500 / 100; pressure := inject_Z 50000 / 50;
               co2 := 800; voc := 120 |}.
Proof. repeat split. discriminate. Qed.

(** C2, amended: the payload layout is 20 bytes, four unsigned 8-bit fields
    followed by eight little-endian unsigned 16-bit fields.  Every buffer
    shorter than 20 bytes fails to decode and every buffer of exactly 20
    bytes is accepted, whatever the host; for every accepted buffer
    humidity = field[1]/2, radonShortTermAvg = field[4], radonLongTermAvg =
    field[5], temperatureC = field[6]/100, pressureHPa = field[7]/50,
    co2Ppm = field[8], vocPpb = field[9], the fields being read from the
    first 20 bytes and each 16-bit field low byte first.  The derivations
    are stated at the host on which the format string [BBBBHHHHHHHH] reads
    its words low byte first, a little-endian one. *)
Theorem decodePayload_layout :
  forall (buf : Buffer),
    (forall h : ByteOrder,
        (List.length buf < 20)%nat -> decodePayload h buf = None)
    /\ (forall h : ByteOrder,
          List.length buf = 20%nat -> exists r, decodePayload h buf = Some r)
    /\ (forall r, decodePayload LittleEndian buf = Some r ->
          (20 <= List.length buf)%nat
          /\ humidity r = (inject_Z (byteAt buf 1) / 2)%Q
          /\ radonStAvg r = byteAt buf 4 + 256 * byteAt buf 5
          /\ radonLtAvg r = byteAt buf 6 + 256 * byteAt buf 7
          /\ temp r = (inject_Z (byteAt buf 8 + 256 * byteAt buf 9) / 100)%Q
          /\ pressure r = (inject_Z (byteAt buf 10 + 256 * byteAt buf 11) / 50)%Q
          /\ co2 r = byteAt buf 12 + 256 * byteAt buf 13
          /\ voc r = byteAt buf 14 + 256 * byteAt buf 15).
Proof.
  intros buf. unfold decodePayload.
  split; [|split].
  - intros h H. now rewrite unpack_payload_short.
  - intros h H. rewrite unpack_payload_fields by lia. eexists. reflexivity.
  - intros r Hr.
    destruct (Nat.lt_ge_cases (List.length buf) 20) as [Hlt|Hge].
    + rewrite unpack_payload_short in Hr by assumption. discriminate.
    + rewrite unpack_payload_fields in Hr by assumption.
      injection Hr as <-. cbn [readingOf humidity radonStAvg radonLtAvg temp
                                pressure co2 voc field nth].
      rewrite !Z.mul_1_r. repeat split; assumption || reflexivity.
Qed.

(** The amended C2 at the sample payload. *)
Lemma decodePayload_layout_witness :
  exists r, decodePayload LittleEndian samplePayload = Some r
            /\ co2 r = 800 /\ voc r = 120.
Proof.
  destruct (decodePayload_layout samplePayload) as (_ & H20 & Hv).
  destruct (H20 LittleEndian eq_refl) as [r Hr].
  exists r. split; [exact Hr|].
  destruct (Hv r Hr) as (_ & _ & _ & _ & _ & _ & Hc & Hvoc).
  split; [rewrite Hc|rewrite Hvoc]; reflexivity.
Defined.

(** ** Identity decoding in [onDiscover] *)

Ltac run :=
  cbv [bind ret this assign emit emits return_ throw when fin Part000.fin];
  cbn [app].

Lemma onDiscover_cases (config : Config) (h : ByteOrder) (peripheral : Peripheral)
      (p : Plugin) :
  (onDiscover config h peripheral p = (Next tt, p, [])
   /\ Part000.onDiscover config h peripheral p = (Next tt, p, []))
  \/ (onDiscover config h peripheral p = (Thrown, p, [])
      /\ Part000.onDiscover config h peripheral p = (Thrown, p, []))
  \/ exists md,
      manufacturerDataOf peripheral = Some md
      /\ (8 <= List.length md)%nat
      /\ wordAt LittleEndian md 0 = 0x0334
      /\ parseInt (serialNumber config) = Some (le32At md 2)
      /\ onDiscover config h peripheral p
         = (Next tt, set_scanning (set_peripheral p (Some peripheral)) false,
            [Log info "found"; ClearTimeout ScanTimeoutRef; StopScanning;
             RemoveDiscoverListener; SetTimeout (Ms (1000 * 3)) ResolveScan])
      /\ Part000.onDiscover config h peripheral p
         = (Next tt, set_scanning (set_peripheral p (Some peripheral)) false,
            [Log info "found"; ClearTimeout ScanTimeoutRef; StopScanning;
             RemoveDiscoverListener; Invoke CallMain]).
Proof.
  unfold onDiscover, Part000.onDiscover.
  destruct (manufacturerDataOf peripheral) as [md|] eqn:Hmd; [|now left].
  destruct (6 <? Z.of_nat (List.length md)) eqn:Hlen; [|now left].
  destruct (Nat.lt_ge_cases (List.length md) 8) as [Hlt|Hge].
  { rewrite unpack_identity_short by assumption. right. now left. }
  rewrite unpack_identity_fields by assumption. cbn [field nth].
  destruct (wordAt LittleEndian md 0 =? 820) eqn:Htag; [|now left].
  unfold serialMatches.
  destruct (parseInt (serialNumber config)) as [n|] eqn:Hn; [|now left].
  destruct (n =? le32At md 2) eqn:Hs; [|now left].
  right. right. exists md.
  apply Z.eqb_eq in Htag, Hs. subst n.
  repeat split; assumption || reflexivity.
Qed.

Lemma onDiscover_short (config : Config) (h : ByteOrder) (peripheral : Peripheral)
      (p : Plugin) (md : Buffer) :
  manufacturerDataOf peripheral = Some md ->
  (List.length md < 7)%nat ->
  onDiscover config h peripheral p = (Next tt, p, [])
  /\ Part000.onDiscover config h peripheral p = (Next tt, p, []).
Proof.
  intros Hmd Hlen. unfold onDiscover, Part000.onDiscover. rewrite Hmd.
  assert ((6 <? Z.of_nat (List.length md)) = false) as -> by (apply Z.ltb_ge; lia).
  split; reflexivity.
Qed.

(** C5: manufacturer data shorter than 7 bytes (or none at all) is passed
    over, leaving the plugin as it was; and the device is taken as found, the
    peripheral cached, only when the first two bytes, little-endian, are
    0x0334 and the next four, little-endian, are the configured serial number
    read by [parseInt].  Both copies of the file. *)
Theorem onDiscover_identity :
  forall (config : Config) (h : ByteOrder) (peripheral : Peripheral) (p : Plugin),
    (forall md, manufacturerDataOf peripheral = Some md ->
                (List.length md < 7)%nat ->
                onDiscover config h peripheral p = (Next tt, p, [])
                /\ Part000.onDiscover config h peripheral p = (Next tt, p, []))
    /\ (manufacturerDataOf peripheral = None ->
        onDiscover config h peripheral p = (Next tt, p, [])
        /\ Part000.onDiscover config h peripheral p = (Next tt, p, []))
    /\ (foundDevice p (onDiscover config h peripheral p)
        \/ foundDevice p (Part000.onDiscover config h peripheral p) ->
        exists md,
          manufacturerDataOf peripheral = Some md
          /\ wordAt LittleEndian md 0 = 0x0334
          /\ parseInt (serialNumber config) = Some (le32At md 2)
          /\ _peripheral (snd (fst (onDiscover config h peripheral p)))
             = Some peripheral
          /\ _peripheral (snd (fst (Part000.onDiscover config h peripheral p)))
             = Some peripheral).
Proof.
  intros config h peripheral p.
  split; [|split].
  - intros md Hmd Hlen. now apply onDiscover_short with (md := md).
  - intros Hmd. unfold onDiscover, Part000.onDiscover. rewrite Hmd. now split.
  - intros Hfound.
    destruct (onDiscover_cases config h peripheral p)
      as [[E E']|[[E E']|(md & Hmd & Hlen & Htag & Hser & E & E')]];
    unfold foundDevice in Hfound; rewrite E, E' in *; cbn [fst snd] in *.
    + exfalso. destruct Hfound as [[F|F]|[F|F]]; now apply F.
    + exfalso. destruct Hfound as [[F|F]|[F|F]]; now apply F.
    + exists md. repeat split; assumption || reflexivity.
Qed.

(** C5 at an advertisement of the configured device: it is found. *)
Lemma onDiscover_identity_witness :
  wordAt LittleEndian sampleManufacturerData 0 = 0x0334
  /\ parseInt (serialNumber sampleConfig) = Some (le32At sampleManufacturerData 2)
  /\ _peripheral (snd (fst (onDiscover sampleConfig LittleEndian samplePeripheral
                                       (constructor sampleConfig))))
     = Some samplePeripheral.
Proof.
  destruct (onDiscover_identity sampleConfig LittleEndian samplePeripheral
                                (constructor sampleConfig)) as (_ & _ & H).
  destruct H as (md & Hmd & Htag & Hser & Hp & _).
  - left. left. vm_compute. intros F. discriminate F.
  - injection Hmd as <-. repeat split; assumption.
Defined.

(** ** The re-entry guard of [scan] *)

(** C9: [scan] called while [_scanning] is set returns at once: no
    discovery is started, no listener registered (the trace is empty) and
    every field of the plugin, the flag and the cached peripheral among
    them, is as before.  Both copies of the file. *)
Theorem scan_while_scanning_is_noop :
  forall p : Plugin,
    _scanning p = true ->
    scan p = (Returned, p, []) /\ Part000.scan p = (Returned, p, []).
Proof.
  intros p H. unfold scan, Part000.scan. run. rewrite H. split; reflexivity.
Qed.

(** C9 at a plugin that is scanning. *)
Lemma scan_while_scanning_is_noop_witness :
  scan (set_scanning samplePlugin true)
  = (Returned, set_scanning samplePlugin true, [])
  /\ Part000.scan (set_scanning samplePlugin true)
     = (Returned, set_scanning samplePlugin true, []).
Proof.
  apply (scan_while_scanning_is_noop (set_scanning samplePlugin true)).
  reflexivity.
Defined.

(** ** One cycle of [main] *)

Lemma quiet_app (t1 t2 : list Event) : quiet t1 -> quiet t2 -> quiet (t1 ++ t2).
Proof.
  unfold quiet. intros [H1 H2] [H3 H4].
  rewrite !existsb_app, H1, H2, H3, H4. split; reflexivity.
Qed.

Lemma quiet_cons (e : Event) (l : list Event) :
  isPublisherEvent e = false -> isTelemetryEvent e = false -> quiet l -> quiet (e :: l).
Proof.
  unfold quiet. cbn. intros -> -> [-> ->]. now split.
Qed.

Lemma existsb_excluded (P Q : Event -> bool) (l : list Event) :
  (forall e, P e = true -> Q e = false) ->
  forallb P l = true -> existsb Q l = false.
Proof.
  intros H. induction l as [|e l IH]; cbn; [reflexivity|].
  intros Hl. apply andb_true_iff in Hl as [He Hl].
  now rewrite (H e He), IH.
Qed.

Lemma forallb_weaken (P Q : Event -> bool) (l : list Event) :
  (forall e, P e = true -> Q e = true) ->
  forallb P l = true -> forallb Q l = true.
Proof.
  intros H. induction l as [|e l IH]; cbn; [reflexivity|].
  intros Hl. apply andb_true_iff in Hl as [He Hl].
  now rewrite (H e He), IH.
Qed.

Ltac by_kind := let e := fresh in intros e; destruct e; cbn; congruence.

Ltac before l e :=
  lazymatch l with
  | e :: _ => constr:(@nil Event)
  | ?x :: ?l' => let r := before l' e in constr:(x :: r)
  end.

Ltac after l e :=
  lazymatch l with
  | e :: ?l' => constr:(l')
  | _ :: ?l' => after l' e
  end.

Ltac prefix_of l t :=
  lazymatch l with
  | t => constr:(@nil Event)
  | ?e :: ?l' => let r := prefix_of l' t in constr:(e :: r)
  end.

Ltac give_prefix t :=
  lazymatch goal with
  | |- exists pre, _ /\ (_, _, ?l) = _ =>
      let pre := prefix_of l t in
      exists pre; split; [split; reflexivity | reflexivity]
  end.

(** With a cached peripheral, the radio on, the stale-state block passed
    and the connect resolved in time, a cycle that reads a buffer ends as
    [afterRead] ends, after a preamble that touches neither sink; the only
    field written on the way is the re-armed [_mainTimer]. *)
Lemma main_reaches_afterRead (config : Config) (env : Env) (p : Plugin)
      (peri : Peripheral) (buf : Buffer) (o : Outcome unit) (p' : Plugin)
      (t : list Event) :
  _peripheral p = Some peri ->
  isPoweredOn (nobleState env) = true ->
  reconcilePasses env = true ->
  connectRace env = ConnectResolved ->
  bufferRead env = Some buf ->
  afterRead airQuality env peri buf (set_mainTimer p (Some (freqOf config)))
  = (o, p', t) ->
  exists pre, quiet pre /\ main config env p = (o, p', pre ++ t).
Proof.
  intros Hperi Hon Hrec Hcon Hbuf Hafter.
  unfold main, armMainTimer, reconcile, connectPhase, readPhase, readCalled.
  unfold reconcilePasses in Hrec. unfold bufferRead in Hbuf.
  rewrite Hcon. run. rewrite Hperi, Hon. cbn [negb].
  destruct (periState env); try discriminate Hrec;
    try (apply negb_true_iff in Hrec; rewrite Hrec);
    destruct (readRace env) as [b| |[b|]|]; try discriminate Hbuf;
    injection Hbuf as ->;
    destruct (readCall (background env)) as [| |[| |]];
    destruct (_mainTimer p); run; rewrite Hafter; cbn [app];
    give_prefix t.
Qed.

(** C3: a reading whose co2 or voc word is 0xFFFF ends the cycle with a
    plain return: nothing is handed to the publisher, no point is written,
    [_lastState] is as before and the cached peripheral is kept.  First for
    the tail of [main] from any state, then for the whole cycle. *)
Theorem sentinel_reading_is_discarded :
  forall (config : Config) (env : Env) (p : Plugin) (peri : Peripheral)
         (buf : Buffer) (r : Reading),
    _peripheral p = Some peri ->
    isPoweredOn (nobleState env) = true ->
    reconcilePasses env = true ->
    connectRace env = ConnectResolved ->
    bufferRead env = Some buf ->
    decodePayload (host env) buf = Some r ->
    co2 r = 0xFFFF \/ voc r = 0xFFFF ->
    (forall q : Plugin,
        exists t, afterRead airQuality env peri buf q = (Returned, q, t) /\ quiet t)
    /\ exists p' t,
        main config env p = (Returned, p', t)
        /\ quiet t
        /\ _lastState p' = _lastState p
        /\ _peripheral p' = Some peri
        /\ p' = set_mainTimer p (Some (freqOf config)).
Proof.
  intros config env p peri buf r Hperi Hon Hrec Hcon Hbuf Hdec Hsent.
  assert (Hs : isSentinel r = true).
  { unfold isSentinel. destruct Hsent as [-> | ->];
      [reflexivity | rewrite Z.eqb_refl; apply orb_true_r]. }
  assert (Htail : forall q : Plugin,
             afterRead airQuality env peri buf q
             = (Returned, q, [Log info "rssi data"; Log warn "sensor value is invalid."])).
  { intros q. unfold afterRead. rewrite Hdec, Hs. reflexivity. }
  split.
  - intros q. eexists. split; [apply Htail | split; reflexivity].
  - destruct (main_reaches_afterRead config env p peri buf _ _ _
                Hperi Hon Hrec Hcon Hbuf (Htail _)) as (pre & Hq & Hmain).
    eexists. eexists. split; [exact Hmain|].
    split; [apply quiet_app; [exact Hq | split; reflexivity]|].
    split; [reflexivity|]. split; [exact Hperi | reflexivity].
Qed.

(** C3 at a cycle that reads the sentinel payload. *)
Lemma sentinel_reading_is_discarded_witness :
  exists p' t,
    main sampleConfig (sampleEnv sentinelPayload) samplePlugin = (Returned, p', t)
    /\ quiet t
    /\ _lastState p' = LastState.init
    /\ _peripheral p' = Some samplePeripheral.
Proof.
  destruct (sentinel_reading_is_discarded sampleConfig (sampleEnv sentinelPayload)
              samplePlugin samplePeripheral sentinelPayload
              {| humidity := inject_Z 140 / 2; radonStAvg := 12; radonLtAvg := 9;
                 temp := inject_Z 2500 / 100; pressure := inject_Z 50000 / 50;
                 co2 := 65535; voc := 120 |}
              eq_refl eq_refl eq_refl eq_refl eq_refl eq_refl (or_introl eq_refl))
    as (_ & p' & t & Hmain & Hq & Hlast & Hperi & _).
  exists p', t. repeat split; try assumption; apply Hq.
Defined.

Lemma connectPhase_timed_out (env : Env) (q : Plugin) (cancelThrows : bool)
      (late : LateConnect) :
  connectRace env = ConnectTimedOut cancelThrows late ->
  exists a b c,
    connectPhase env q
    = (Returned, q,
       [Connect; Log warn "connect has timed out."; CancelConnect]
         ++ a ++ Sleep (1000 * 3) :: b ++ QueueAdd MainTask :: c)
    /\ forallb isLateNoise (a ++ b ++ c) = true.
Proof.
  intros H. unfold connectPhase, timerSide, timerArm, retryShortly, lateCatch.
  rewrite H.
  destruct cancelThrows, late as [|[| |]|]; run; cbn [samePeriod app];
    lazymatch goal with
    | |- exists a b c, (_, _, _ :: _ :: _ :: ?l) = _ /\ _ =>
        let a := before l (Sleep (1000 * 3)) in
        let l1 := after l (Sleep (1000 * 3)) in
        let b := before l1 (QueueAdd MainTask) in
        let c := after l1 (QueueAdd MainTask) in
        exists a, b, c; split; reflexivity
    end.
Qed.

Lemma main_stops_in_connectPhase (config : Config) (env : Env) (p : Plugin)
      (peri : Peripheral) (q' : Plugin) (t : list Event) :
  _peripheral p = Some peri ->
  isPoweredOn (nobleState env) = true ->
  reconcilePasses env = true ->
  connectPhase env (set_mainTimer p (Some (freqOf config))) = (Returned, q', t) ->
  exists pre,
    forallb isPreamble pre = true /\ main config env p = (Returned, q', pre ++ t).
Proof.
  intros Hperi Hon Hrec Hphase.
  unfold main, armMainTimer, reconcile.
  unfold reconcilePasses in Hrec.
  run. rewrite Hperi, Hon. cbn [negb].
  destruct (periState env); try discriminate Hrec;
    try (apply negb_true_iff in Hrec; rewrite Hrec);
    destruct (_mainTimer p); run; rewrite Hphase; cbn [app];
    lazymatch goal with
    | |- exists pre, _ /\ (_, _, ?l) = _ =>
        let pre := prefix_of l t in
        exists pre; split; reflexivity
    end.
Qed.

Lemma preamble_quiet (l : list Event) : forallb isPreamble l = true -> quiet l.
Proof.
  intros H. split; apply (existsb_excluded isPreamble); try exact H;
    by_kind.
Qed.

Lemma lateNoise_quiet (l : list Event) : forallb isLateNoise l = true -> quiet l.
Proof.
  intros H. split; apply (existsb_excluded isLateNoise); try exact H;
    by_kind.
Qed.

(** C7: when the connect is still pending after its 3 s timer, the
    connect is cancelled, the cycle sleeps 3 s, queues [main] again and
    returns; nothing reaches the publisher or the telemetry sink.  Between
    the cancel and the sleep, during the sleep and after the queued retry the
    only further calls are the error log and the disconnect of a connect that
    rejects late.  The connect phase leaves every field of the plugin as it
    found it, so over the whole cycle the only field written is
    [_mainTimer], re-armed before the connect as in every cycle; the cached
    peripheral and [_lastState] are kept. *)
Theorem connect_timeout_keeps_handle :
  forall (config : Config) (env : Env) (p : Plugin) (peri : Peripheral)
         (cancelThrows : bool) (late : LateConnect),
    _peripheral p = Some peri ->
    isPoweredOn (nobleState env) = true ->
    reconcilePasses env = true ->
    connectRace env = ConnectTimedOut cancelThrows late ->
    (forall q : Plugin,
        exists a b c,
          connectPhase env q
          = (Returned, q,
             [Connect; Log warn "connect has timed out."; CancelConnect]
               ++ a ++ Sleep (1000 * 3) :: b ++ QueueAdd MainTask :: c)
          /\ forallb isLateNoise (a ++ b ++ c) = true)
    /\ exists pre a b c p',
        main config env p
        = (Returned, p',
           pre ++ [Connect; Log warn "connect has timed out."; CancelConnect]
               ++ a ++ Sleep (1000 * 3) :: b ++ QueueAdd MainTask :: c)
        /\ forallb isPreamble pre = true
        /\ forallb isLateNoise (a ++ b ++ c) = true
        /\ quiet (pre ++ [Connect; Log warn "connect has timed out."; CancelConnect]
                      ++ a ++ Sleep (1000 * 3) :: b ++ QueueAdd MainTask :: c)
        /\ p' = set_mainTimer p (Some (freqOf config))
        /\ _peripheral p' = Some peri
        /\ _lastState p' = _lastState p
        /\ _scanning p' = _scanning p.
Proof.
  intros config env p peri cancelThrows late Hperi Hon Hrec Hcon.
  split.
  - intros q.
    now apply connectPhase_timed_out with (cancelThrows := cancelThrows) (late := late).
  - destruct (connectPhase_timed_out env (set_mainTimer p (Some (freqOf config)))
                cancelThrows late Hcon) as (a & b & c & Hphase & Hnoise).
    destruct (main_stops_in_connectPhase config env p peri _ _ Hperi Hon Hrec Hphase)
      as (pre & Hpre & Hmain).
    exists pre, a, b, c, (set_mainTimer p (Some (freqOf config))).
    split; [exact Hmain|]. split; [exact Hpre|]. split; [exact Hnoise|].
    split.
    { rewrite !forallb_app in Hnoise.
      apply andb_true_iff in Hnoise as [Ha Hbc].
      apply andb_true_iff in Hbc as [Hb Hc].
      apply quiet_app; [now apply preamble_quiet|].
      apply (quiet_app [_; _; _]); [split; reflexivity|].
      apply quiet_app; [now apply lateNoise_quiet|].
      apply quiet_cons; [reflexivity | reflexivity |].
      apply quiet_app; [now apply lateNoise_quiet|].
      apply quiet_cons; [reflexivity | reflexivity |].
      now apply lateNoise_quiet. }
    split; [reflexivity|]. split; [exact Hperi|]. split; reflexivity.
Qed.

(** C7 at a cycle whose connect never answers. *)
Lemma connect_timeout_keeps_handle_witness :
  exists pre a b c p',
    main sampleConfig timeoutEnv samplePlugin
    = (Returned, p',
       pre ++ [Connect; Log warn "connect has timed out."; CancelConnect]
           ++ a ++ Sleep (1000 * 3) :: b ++ QueueAdd MainTask :: c)
    /\ _peripheral p' = Some samplePeripheral.
Proof.
  destruct (connect_timeout_keeps_handle sampleConfig timeoutEnv samplePlugin
              samplePeripheral false StillPending eq_refl eq_refl eq_refl eq_refl)
    as (_ & pre & a & b & c & p' & Hmain & _ & _ & _ & _ & Hperi & _).
  exists pre, a, b, c, p'. split; assumption.
Defined.

(** ** Change suppression in the publish block *)

Ltac simp_fields :=
  cbn [_aqService _co2Service _humidityService _tempService _lastState
       _mainTimer _scanning _peripheral _influx set_lastState
       LastState.set_aq_voc LastState.set_co2 LastState.set_humidity
       LastState.set_temp app andb
       LastState.aq LastState.voc LastState.co2 LastState.humidity LastState.temp].

Lemma publish_facets (classify : Q -> Z -> Z -> Z -> Z) (r : Reading) (p : Plugin) :
  exists p' t,
    publish classify r p = (Next tt, p', t)
    /\ updatesOf AirQuality t
       = (if changedAQ classify r p
          then [inject_Z (classify (humidity r) (radonStAvg r) (co2 r) (voc r))]
          else [])
    /\ updatesOf VOCDensity t
       = (if changedAQ classify r p then [inject_Z (voc r)] else [])
    /\ updatesOf CarbonDioxideLevel t
       = (if changedCO2 r p then [inject_Z (co2 r)] else [])
    /\ updatesOf CurrentRelativeHumidity t
       = (if changedHumidity r p then [humidity r] else [])
    /\ updatesOf CurrentTemperature t
       = (if changedTemp r p then [temp r] else [])
    /\ _lastState p'
       = {| LastState.aq :=
              if changedAQ classify r p
              then classify (humidity r) (radonStAvg r) (co2 r) (voc r)
              else LastState.aq (_lastState p);
            LastState.voc :=
              if changedAQ classify r p then voc r else LastState.voc (_lastState p);
            LastState.co2 :=
              if changedCO2 r p then co2 r else LastState.co2 (_lastState p);
            LastState.humidity :=
              if changedHumidity r p then humidity r
              else LastState.humidity (_lastState p);
            LastState.temp :=
              if changedTemp r p then temp r else LastState.temp (_lastState p) |}
    /\ p' = set_lastState p (_lastState p').
Proof.
  unfold publish, publishAQ, publishCO2, publishHumidity, publishTemp,
    changedAQ, changedCO2, changedHumidity, changedTemp.
  destruct p as [sa sc sh st [la lv lc lh lt] mt sg pe fx].
  set (a := classify (humidity r) (radonStAvg r) (co2 r) (voc r)).
  run. simp_fields.
  destruct sa; [destruct (Zneq a la || Zneq (voc r) lv)|]; simp_fields;
    (destruct sc; [destruct (Zneq (co2 r) lc)|]; simp_fields);
    (destruct sh; [destruct (Qneq (humidity r) lh)|]; simp_fields);
    (destruct st; [destruct (Qneq (temp r) lt)|]; simp_fields);
    (eexists; eexists; split; [reflexivity|]; repeat split).
Qed.

Lemma u8_nonneg (b : byte) : 0 <= u8 b.
Proof. unfold u8. lia. Qed.

Lemma decoded_co2_nonneg (h : ByteOrder) (buf : Buffer) (r : Reading) :
  decodePayload h buf = Some r -> 0 <= co2 r.
Proof.
  intros H. rewrite (decoded_co2 h buf r H).
  unfold wordAt, byteAt.
  pose proof (u8_nonneg (nth 12 buf x00)). pose proof (u8_nonneg (nth 13 buf x00)).
  destruct h; lia.
Qed.

Lemma changedCO2_after_publish (classify : Q -> Z -> Z -> Z -> Z)
      (r r2 : Reading) (p p' : Plugin) (t : list Event) :
  publish classify r p = (Next tt, p', t) ->
  co2 r2 = co2 r ->
  changedCO2 r2 p' = false.
Proof.
  intros E Hco2.
  destruct (publish_facets classify r p) as (q & u & E' & _ & _ & _ & _ & _ & Hl & Hp).
  rewrite E in E'. injection E' as <- <-.
  unfold changedCO2. rewrite Hp at 1. cbn [_co2Service set_lastState].
  rewrite Hl. cbn [LastState.co2]. rewrite Hco2.
  unfold changedCO2, Zneq.
  destruct (_co2Service p); [|reflexivity]. cbn [andb].
  destruct (co2 r =? LastState.co2 (_lastState p)) eqn:Heq; cbn [negb].
  - now rewrite Heq.
  - now rewrite Z.eqb_refl.
Qed.

(** C6: each enabled facet is handed to the publisher exactly when its
    new value differs from the one in [_lastState], and [_lastState] takes
    the new value exactly then; air quality and VOC go out together when
    either differs.  A second reading with the same co2 produces no CO2
    update, so two such readings produce one update, on the first, whenever
    the first differs from the recorded value, as every first reading after
    construction does.  The block is the same in both copies of the file;
    [classify] stands for the air-quality chain of either. *)
Theorem publish_only_on_change :
  (forall (classify : Q -> Z -> Z -> Z -> Z) (r : Reading) (p : Plugin),
      exists p' t,
        publish classify r p = (Next tt, p', t)
        /\ updatesOf AirQuality t
           = (if changedAQ classify r p
              then [inject_Z (classify (humidity r) (radonStAvg r) (co2 r) (voc r))]
              else [])
        /\ updatesOf VOCDensity t
           = (if changedAQ classify r p then [inject_Z (voc r)] else [])
        /\ updatesOf CarbonDioxideLevel t
           = (if changedCO2 r p then [inject_Z (co2 r)] else [])
        /\ updatesOf CurrentRelativeHumidity t
           = (if changedHumidity r p then [humidity r] else [])
        /\ updatesOf CurrentTemperature t
           = (if changedTemp r p then [temp r] else [])
        /\ _lastState p'
           = {| LastState.aq :=
                  if changedAQ classify r p
                  then classify (humidity r) (radonStAvg r) (co2 r) (voc r)
                  else LastState.aq (_lastState p);
                LastState.voc :=
                  if changedAQ classify r p then voc r
                  else LastState.voc (_lastState p);
                LastState.co2 :=
                  if changedCO2 r p then co2 r else LastState.co2 (_lastState p);
                LastState.humidity :=
                  if changedHumidity r p then humidity r
                  else LastState.humidity (_lastState p);
                LastState.temp :=
                  if changedTemp r p then temp r
                  else LastState.temp (_lastState p) |}
        /\ p' = set_lastState p (_lastState p')
        /\ forall r2 : Reading,
            co2 r2 = co2 r ->
            exists p'' t2,
              publish classify r2 p' = (Next tt, p'', t2)
              /\ updatesOf CarbonDioxideLevel t2 = []
              /\ (changedCO2 r p = true ->
                  updatesOf CarbonDioxideLevel (t ++ t2) = [inject_Z (co2 r)]))
  /\ (forall (config : Config) (h : ByteOrder) (buf : Buffer) (r : Reading),
         disableCO2 config = false ->
         decodePayload h buf = Some r ->
         changedCO2 r (constructor config) = true).
Proof.
  split.
  - intros classify r p.
    destruct (publish_facets classify r p)
      as (p' & t & E & Haq & Hvoc & Hco2 & Hhum & Htemp & Hlast & Hp).
    exists p', t. repeat (split; [assumption|]).
    intros r2 Hsame.
    destruct (publish_facets classify r2 p')
      as (p'' & t2 & E2 & _ & _ & Hco2' & _).
    rewrite (changedCO2_after_publish classify r r2 p p' t E Hsame) in Hco2'.
    exists p'', t2. split; [exact E2|]. split; [exact Hco2'|].
    intros Hchanged. unfold updatesOf in *.
    rewrite flat_map_app, Hco2, Hco2', Hchanged. reflexivity.
  - intros config h buf r Hen Hdec.
    unfold changedCO2, constructor, Zneq.
    cbn [_co2Service _lastState LastState.co2 LastState.init]. rewrite Hen.
    pose proof (decoded_co2_nonneg h buf r Hdec) as Hpos.
    destruct (co2 r =? -1) eqn:Heq; [apply Z.eqb_eq in Heq; lia | reflexivity].
Qed.

(** C6 at two readings of the sample payload after construction: one CO2
    update, of 800 ppm, on the first. *)
Lemma publish_only_on_change_witness :
  exists r p' t p'' t2,
    decodePayload LittleEndian samplePayload = Some r
    /\ publish airQuality r (constructor sampleConfig) = (Next tt, p', t)
    /\ publish airQuality r p' = (Next tt, p'', t2)
    /\ updatesOf CarbonDioxideLevel t2 = []
    /\ updatesOf CarbonDioxideLevel (t ++ t2) = [inject_Z (co2 r)].
Proof.
  pose proof (decodePayload_accepted LittleEndian samplePayload (Nat.le_refl 20)) as Hr.
  set (r := readingOf _) in Hr.
  destruct publish_only_on_change as [Hpub Hfirst].
  destruct (Hpub airQuality r (constructor sampleConfig))
    as (p' & t & E & _ & _ & _ & _ & _ & _ & _ & Hnext).
  destruct (Hnext r eq_refl) as (p'' & t2 & E2 & Hnone & Hone).
  exists r, p', t, p'', t2.
  repeat (split; [assumption|]).
  apply Hone. apply (Hfirst sampleConfig LittleEndian samplePayload r eq_refl Hr).
Defined.


(** ** The operation serializer *)

Section SerializerFacts.
Import Serializer.

Lemma oneByOne_snoc (from : nat) (oks : list bool) (ok : bool) :
  oneByOne from (oks ++ [ok])
  = oneByOne from oks
      ++ [Started (from + List.length oks); Settled (from + List.length oks) ok].
Proof.
  revert from. induction oks as [|o oks IH]; intros from; cbn.
  - now rewrite Nat.add_0_r.
  - rewrite IH. now rewrite Nat.add_succ_r.
Qed.

Lemma startedIn_oneByOne (from : nat) (oks : list bool) :
  startedIn (oneByOne from oks) = seq from (List.length oks).
Proof.
  revert from. induction oks as [|o oks IH]; intros from; cbn; [reflexivity|].
  f_equal. apply IH.
Qed.

Lemma settledIn_oneByOne (from : nat) (oks : list bool) :
  settledIn (oneByOne from oks) = seq from (List.length oks).
Proof.
  revert from. induction oks as [|o oks IH]; intros from; cbn; [reflexivity|].
  f_equal. apply IH.
Qed.

Lemma exclusive_oneByOne (from : nat) (oks : list bool) (rest : list Obs) :
  exclusive None (oneByOne from oks ++ rest) = exclusive None rest.
Proof.
  revert from. induction oks as [|o oks IH]; intros from; cbn; [reflexivity|].
  rewrite Nat.eqb_refl. apply IH.
Qed.

Lemma step_Idle_Submit (s : Sys) (oks : list bool) :
  Idle s oks -> Busy (step s Submit) oks.
Proof.
  destruct s as [qs fl nx lg]. unfold Idle, Busy. cbn.
  intros (-> & -> & -> & ->). cbn.
  rewrite Nat.sub_diag. repeat split; lia.
Qed.

Lemma step_Busy_Submit (s : Sys) (oks : list bool) :
  Busy s oks -> Busy (step s Submit) oks.
Proof.
  destruct s as [qs fl nx lg]. unfold Busy. cbn.
  intros (-> & -> & Hlt & ->). cbn.
  rewrite app_nil_r.
  replace (nx - List.length oks)%nat
    with (S (nx - S (List.length oks)))%nat by lia.
  rewrite seq_S.
  replace (S (List.length oks) + (nx - S (List.length oks)))%nat with nx by lia.
  repeat split; lia.
Qed.

Lemma step_Idle_Finish (s : Sys) (oks : list bool) (ok : bool) :
  Idle s oks -> step s (Finish ok) = s.
Proof.
  destruct s as [qs fl nx lg]. unfold Idle. cbn.
  now intros (-> & _).
Qed.

Lemma step_Busy_Finish (s : Sys) (oks : list bool) (ok : bool) :
  Busy s oks ->
  next (step s (Finish ok)) = next s
  /\ (Idle (step s (Finish ok)) (oks ++ [ok])
      \/ Busy (step s (Finish ok)) (oks ++ [ok])).
Proof.
  destruct s as [qs fl nx lg]. unfold Busy, Idle. cbn.
  intros (-> & -> & Hlt & ->).
  rewrite oneByOne_snoc, length_app. cbn [List.length Nat.add].
  destruct (nx - S (List.length oks))%nat as [|k] eqn:Hk; cbn.
  - split; [reflexivity|]. left.
    repeat split; [lia|].
    now rewrite <- app_assoc.
  - split; [reflexivity|]. right.
    rewrite Nat.add_1_r.
    replace (nx - S (S (List.length oks)))%nat with k by lia.
    repeat split; [lia|].
    now rewrite <- !app_assoc.
Qed.

Lemma step_invariant (s : Sys) (a : Action) :
  (exists oks, Idle s oks \/ Busy s oks) ->
  exists oks, Idle (step s a) oks \/ Busy (step s a) oks.
Proof.
  intros (oks & [H|H]); destruct a as [|ok].
  - exists oks. right. now apply step_Idle_Submit.
  - exists oks. left. now rewrite (step_Idle_Finish s oks ok H).
  - exists oks. right. now apply step_Busy_Submit.
  - exists (oks ++ [ok]). now apply step_Busy_Finish.
Qed.

Lemma run_invariant (acts : list Action) (s : Sys) :
  (exists oks, Idle s oks \/ Busy s oks) ->
  exists oks, Idle (fold_left step acts s) oks \/ Busy (fold_left step acts s) oks.
Proof.
  revert s. induction acts as [|a acts IH]; intros s H; cbn; [exact H|].
  apply IH. now apply step_invariant.
Qed.

Lemma init_Idle : Idle init [].
Proof. repeat split. Qed.

Lemma next_counts_submits (acts : list Action) (s : Sys) :
  next (fold_left step acts s) = (next s + submits acts)%nat.
Proof.
  revert s. induction acts as [|a acts IH]; intros s; cbn.
  - unfold submits. cbn. lia.
  - rewrite IH. unfold submits. destruct a as [|ok]; cbn.
    + destruct (add (next s) (q s)). cbn. lia.
    + destruct (inflight s); [reflexivity|].
      destruct (settle n ok (q s)). cbn. lia.
Qed.

(** Letting the remaining tasks finish, with whatever results, runs all of
    them. *)
Lemma drain (more : list bool) (s : Sys) (oks : list bool) :
  Idle s oks \/ Busy s oks ->
  List.length more = (next s - List.length oks)%nat ->
  Idle (fold_left step (map Finish more) s) (oks ++ more)
  /\ next (fold_left step (map Finish more) s) = next s.
Proof.
  revert s oks. induction more as [|ok more IH]; intros s oks H Hlen.
  - cbn. rewrite app_nil_r. destruct H as [H|H]; [now split|].
    destruct H as (_ & _ & Hlt & _). cbn in Hlen. lia.
  - cbn [map fold_left]. destruct H as [H|H].
    + destruct H as (_ & _ & Hn & _). cbn in Hlen. lia.
    + destruct (step_Busy_Finish s oks ok H) as [Hnext Hinv].
      destruct (IH (step s (Finish ok)) (oks ++ [ok]) Hinv) as [Hidle Hn].
      { rewrite Hnext, length_app. cbn in *. lia. }
      rewrite <- app_assoc in Hidle. cbn in Hidle.
      split; [exact Hidle | congruence].
Qed.

Lemma starts_after_earlier_settled (oks : list bool) :
  forall (from : nat) (running : bool) (pre post : list Obs) (k : nat),
    oneByOne from oks
      ++ (if running then [Started (from + List.length oks)] else [])
    = pre ++ Started k :: post ->
    (from <= k)%nat /\ settledIn pre = seq from (k - from).
Proof.
  induction oks as [|ok oks IH]; intros from running pre post k H.
  - cbn in H. destruct running; [|now destruct pre].
    destruct pre as [|e pre]; [|now destruct pre].
    injection H as <-. rewrite Nat.add_0_r, Nat.sub_diag. now split.
  - cbn in H. destruct pre as [|e pre].
    + injection H as <- _. rewrite Nat.sub_diag. now split.
    + injection H as <- H. destruct pre as [|e pre]; [discriminate H|].
      injection H as <- H.
      replace (from + S (List.length oks))%nat
        with (S from + List.length oks)%nat in H by lia.
      destruct (IH (S from) running pre post k H) as [Hle Hs].
      split; [lia|]. unfold settledIn in *. cbn. rewrite Hs.
      replace (k - from)%nat with (S (k - S from)) by lia. reflexivity.
Qed.

Lemma log_shape (s : Sys) (oks : list bool) :
  Idle s oks \/ Busy s oks ->
  exists running : bool,
    log s = oneByOne 0 oks ++ (if running then [Started (0 + List.length oks)] else []).
Proof.
  intros [(_ & _ & _ & H)|(_ & _ & _ & H)].
  - exists false. now rewrite app_nil_r.
  - exists true. exact H.
Qed.

End SerializerFacts.

(** C8: whatever the interleaving of submissions and completions, the
    serializer runs the tasks one by one in admission order: the log is
    task 0 started and settled, then task 1, and so on, with at most the
    last one still running; a task starts only when every earlier one has
    settled, whatever the results; and once the tasks still outstanding have
    finished, successfully or not, every submitted task has been started
    exactly once and settled exactly once, in the order of admission. *)
Theorem serializer_runs_tasks_in_order :
  forall acts : list Serializer.Action,
    exists oks : list bool,
      (Serializer.Idle (Serializer.exec acts) oks
       \/ Serializer.Busy (Serializer.exec acts) oks)
      /\ Serializer.next (Serializer.exec acts) = Serializer.submits acts
      /\ Serializer.exclusive None (Serializer.log (Serializer.exec acts)) = true
      /\ Serializer.settledIn (Serializer.log (Serializer.exec acts))
         = seq 0 (List.length oks)
      /\ (exists running : nat,
             (running <= 1)%nat
             /\ Serializer.startedIn (Serializer.log (Serializer.exec acts))
                = seq 0 (List.length oks + running))
      /\ (forall pre post k,
             Serializer.log (Serializer.exec acts)
             = pre ++ Serializer.Started k :: post ->
             Serializer.settledIn pre = seq 0 k)
      /\ (forall more : list bool,
             List.length more = (Serializer.submits acts - List.length oks)%nat ->
             let final := Serializer.exec (acts ++ map Serializer.Finish more) in
             Serializer.log final = Serializer.oneByOne 0 (oks ++ more)
             /\ Serializer.startedIn (Serializer.log final)
                = seq 0 (Serializer.submits acts)
             /\ Serializer.settledIn (Serializer.log final)
                = seq 0 (Serializer.submits acts)
             /\ Serializer.inflight final = []
             /\ Serializer.queue (Serializer.q final) = []).
Proof.
  intros acts.
  destruct (run_invariant acts Serializer.init
              (ex_intro _ [] (or_introl init_Idle))) as (oks & Hinv).
  fold (Serializer.exec acts) in Hinv.
  pose proof (next_counts_submits acts Serializer.init) as Hnext.
  fold (Serializer.exec acts) in Hnext. cbn in Hnext.
  exists oks. split; [exact Hinv|]. split; [exact Hnext|].
  split; [|split; [|split; [|split]]].
  - destruct Hinv as [(_ & _ & _ & ->)|(_ & _ & _ & ->)].
    + rewrite <- (app_nil_r (Serializer.oneByOne 0 oks)).
      now rewrite exclusive_oneByOne.
    + now rewrite exclusive_oneByOne.
  - destruct Hinv as [(_ & _ & _ & ->)|(_ & _ & _ & ->)].
    + apply settledIn_oneByOne.
    + unfold Serializer.settledIn. rewrite flat_map_app. cbn.
      rewrite app_nil_r. apply settledIn_oneByOne.
  - destruct Hinv as [(_ & _ & _ & ->)|(_ & _ & _ & ->)].
    + exists 0%nat. split; [lia|]. rewrite Nat.add_0_r. apply startedIn_oneByOne.
    + exists 1%nat. split; [lia|].
      unfold Serializer.startedIn. rewrite flat_map_app. cbn.
      rewrite seq_app. f_equal. apply startedIn_oneByOne.
  - intros pre post k Hlog.
    destruct (log_shape _ _ Hinv) as [running Hshape].
    rewrite Hshape in Hlog.
    destruct (starts_after_earlier_settled oks 0 running pre post k Hlog) as [_ Hs].
    now rewrite Nat.sub_0_r in Hs.
  - intros more Hlen final.
    assert (Hfinal : final = fold_left Serializer.step (map Serializer.Finish more)
                               (Serializer.exec acts)).
    { unfold final, Serializer.exec. apply fold_left_app. }
    destruct (drain more (Serializer.exec acts) oks Hinv) as [Hidle Hn].
    { rewrite Hnext. exact Hlen. }
    rewrite <- Hfinal in Hidle, Hn.
    destruct Hidle as (Hfl & Hq & Hnx & Hlog).
    assert (Hcount : List.length (oks ++ more) = Serializer.submits acts)
      by (rewrite <- Hnx, Hn; exact Hnext).
    split; [exact Hlog|]. rewrite Hlog.
    split; [rewrite startedIn_oneByOne; now rewrite Hcount|].
    split; [rewrite settledIn_oneByOne; now rewrite Hcount|].
    split; [exact Hfl|]. now rewrite Hq.
Qed.

(** C8 on five steps: three submissions, the first task failing. *)
Example serializer_after_a_failure :
  Serializer.log
    (Serializer.exec
       [Serializer.Submit; Serializer.Submit; Serializer.Finish false;
        Serializer.Submit; Serializer.Finish true; Serializer.Finish true])
  = [Serializer.Started 0; Serializer.Settled 0 false;
     Serializer.Started 1; Serializer.Settled 1 true;
     Serializer.Started 2; Serializer.Settled 2 true].
Proof. reflexivity. Qed.

(** ** The tail of [main]: decode, publish, telemetry *)

Lemma publish_shape (classify : Q -> Z -> Z -> Z -> Z) (r : Reading) (p : Plugin) :
  exists p' t,
    publish classify r p = (Next tt, p', t)
    /\ forallb isPublisherEvent t = true
    /\ p' = set_lastState p (_lastState p').
Proof.
  unfold publish, publishAQ, publishCO2, publishHumidity, publishTemp.
  destruct p as [sa sc sh st [la lv lc lh lt] mt sg pe fx].
  set (a := classify (humidity r) (radonStAvg r) (co2 r) (voc r)).
  run. simp_fields.
  destruct sa; [destruct (Zneq a la || Zneq (voc r) lv)|]; simp_fields;
    (destruct sc; [destruct (Zneq (co2 r) lc)|]; simp_fields);
    (destruct sh; [destruct (Qneq (humidity r) lh)|]; simp_fields);
    (destruct st; [destruct (Qneq (temp r) lt)|]; simp_fields);
    (eexists; eexists; split; [reflexivity|]; split; reflexivity).
Qed.

Lemma afterRead_cases (classify : Q -> Z -> Z -> Z -> Z) (env : Env)
      (peri : Peripheral) (buf : Buffer) (q : Plugin) :
  (decodePayload (host env) buf = None
   /\ afterRead classify env peri buf q = (Thrown, q, []))
  \/ (exists r,
        decodePayload (host env) buf = Some r /\ isSentinel r = true
        /\ afterRead classify env peri buf q
           = (Returned, q, [Log info "rssi data"; Log warn "sensor value is invalid."]))
  \/ (exists r q' tp,
        decodePayload (host env) buf = Some r /\ isSentinel r = false
        /\ publish classify r q = (Next tt, q', tp)
        /\ afterRead classify env peri buf q
           = (Next tt, q',
              Log info "rssi data"
                :: tp ++ influxTrace (_influx q) env peri r ++ [Sleep (1000 * 3)])).
Proof.
  unfold afterRead.
  destruct (decodePayload (host env) buf) as [r|]; [|now left].
  right. destruct (isSentinel r) eqn:Hs.
  - left. exists r. split; [reflexivity|]. split; [exact Hs|]. reflexivity.
  - right. destruct (publish_shape classify r q) as (q' & tp & E & _ & Hq).
    exists r, q', tp.
    split; [reflexivity|]. split; [exact Hs|]. split; [exact E|].
    unfold influxBlock, influxTrace. run. rewrite E.
    assert (Hfx : _influx q' = _influx q) by (now rewrite Hq).
    rewrite Hfx.
    destruct (_influx q), (influxThrows env), (flushReached (background env));
      cbn [app andb negb]; reflexivity.
Qed.

(** ** Every path through [main] *)

Ltac env_fields :=
  cbn [host nobleState periState staleDisconnectRejects staleCancelThrows
       connectRace readRace closingDisconnectRejects influxThrows
       background readCall lateBuffer flushReached
       _aqService _co2Service _humidityService _tempService _lastState
       _mainTimer _scanning _peripheral _influx set_mainTimer set_peripheral
       set_scanning set_lastState fst snd negb andb isPoweredOn reconcilePasses
       bufferRead samePeriod] in *.

Ltac main_crunch :=
  unfold main, armMainTimer, reconcile, connectPhase, readPhase, timerSide,
    timerArm, retryShortly, lateCatch, readCalled, lateDisconnect, calledBy;
  run; env_fields;
  repeat (match goal with
          | |- context [isPoweredOn ?x] => is_var x; destruct x
          | |- context [match ?x with _ => _ end] => is_var x; destruct x
          | |- context [if ?x then _ else _] => is_var x; destruct x
          | |- context [samePeriod ?x _] => is_var x; destruct x
          end; run; env_fields; cbn [app]).

Ltac trace_of_goal :=
  lazymatch goal with
  | |- _ (_, _, ?l) => constr:(l)
  end.

(** The paths through one call of [main], as a case principle: to prove
    [P] of the result it is enough to prove it on each path, where the
    pieces of the trace that depend on the radio's answers are any lists of
    link events. *)
Lemma main_paths (config : Config) (env : Env) (p : Plugin)
      (P : Outcome unit * Plugin * list Event -> Prop) :
  (isPoweredOn (nobleState env) = false ->
   P (Returned, set_mainTimer p (Some (Ms (1000 * 10))),
      clearTrace p
        ++ [Log warn "Bluetooth LE Power is off. will retry in 10 seconds...";
            SetTimeout (Ms (1000 * 10)) (AddToQueue MainTask)])) ->
  (isPoweredOn (nobleState env) = true -> _peripheral p = None ->
   _scanning p = true ->
   P (Returned, p, clearTrace p)) ->
  (isPoweredOn (nobleState env) = true -> _peripheral p = None ->
   _scanning p = false ->
   P (Returned, p, clearTrace p ++ [QueueAdd ScanThenMainTask])) ->
  (forall peri tl,
      isPoweredOn (nobleState env) = true -> _peripheral p = Some peri ->
      periState env = errorState ->
      forallb isLinkEvent tl = true ->
      P (Returned, set_peripheral (set_mainTimer p (Some (freqOf config))) None,
         clearTrace p
           ++ SetTimeout (freqOf config) (AddToQueue MainTask)
           :: Log warn "Peripheral state is" :: Sleep (1000 * 3)
           :: QueueAdd ScanTask :: tl)) ->
  (forall peri rec,
      isPoweredOn (nobleState env) = true -> _peripheral p = Some peri ->
      reconcilePasses env = false -> periState env <> errorState ->
      forallb isLinkEvent rec = true ->
      P (Thrown, set_mainTimer p (Some (freqOf config)),
         clearTrace p ++ SetTimeout (freqOf config) (AddToQueue MainTask) :: rec)) ->
  (forall peri rec mid bk af,
      isPoweredOn (nobleState env) = true -> _peripheral p = Some peri ->
      reconcilePasses env = true -> connectRace env <> ConnectResolved ->
      forallb isLinkEvent rec = true -> forallb isLinkEvent mid = true ->
      forallb isLinkEvent bk = true -> forallb isLinkEvent af = true ->
      P (Returned, set_mainTimer p (Some (freqOf config)),
         clearTrace p
           ++ SetTimeout (freqOf config) (AddToQueue MainTask)
           :: rec ++ Log info "connect to" :: Connect
           :: mid ++ Sleep (1000 * 3) :: bk ++ QueueAdd MainTask :: af)) ->
  (forall peri rec rd,
      isPoweredOn (nobleState env) = true -> _peripheral p = Some peri ->
      reconcilePasses env = true -> connectRace env = ConnectResolved ->
      readRace env = ReadRejected \/ readRace env = ReadTimedOutThenRejected ->
      forallb isLinkEvent rec = true -> forallb isLinkEvent rd = true ->
      P (Thrown, set_mainTimer p (Some (freqOf config)),
         clearTrace p
           ++ SetTimeout (freqOf config) (AddToQueue MainTask)
           :: rec ++ Log info "connect to" :: Connect :: UpdateRssi
           :: DiscoverCharacteristics :: rd)) ->
  (forall peri rec rd bk af,
      isPoweredOn (nobleState env) = true -> _peripheral p = Some peri ->
      reconcilePasses env = true -> connectRace env = ConnectResolved ->
      readRace env = ReadTimedOut None ->
      forallb isLinkEvent rec = true -> forallb isLinkEvent rd = true ->
      forallb isLinkEvent bk = true -> forallb isLinkEvent af = true ->
      P (Returned, set_mainTimer p (Some (freqOf config)),
         clearTrace p
           ++ SetTimeout (freqOf config) (AddToQueue MainTask)
           :: rec ++ Log info "connect to" :: Connect :: UpdateRssi
           :: DiscoverCharacteristics
           :: rd ++ Sleep (1000 * 3) :: bk ++ QueueAdd MainTask :: af)) ->
  (forall peri buf rec rd o q' t,
      isPoweredOn (nobleState env) = true -> _peripheral p = Some peri ->
      reconcilePasses env = true -> connectRace env = ConnectResolved ->
      bufferRead env = Some buf ->
      forallb isLinkEvent rec = true -> forallb isLinkEvent rd = true ->
      afterRead airQuality env peri buf (set_mainTimer p (Some (freqOf config)))
      = (o, q', t) ->
      P (o, q',
         clearTrace p
           ++ SetTimeout (freqOf config) (AddToQueue MainTask)
           :: rec ++ Log info "connect to" :: Connect :: UpdateRssi
           :: DiscoverCharacteristics :: rd ++ t)) ->
  P (main config env p).
Proof.
  intros Hoff Hscanning Hlocate Herror Hstale Hnoconnect Hreadfail Hreadtimeout
         Hread.
  destruct env as [h ns ps sdr sct cr rr cdr ift [rcl lb fr]].
  destruct p as [sa sc sh st ls mt sg pe fx].
  unfold clearTrace in *.
  main_crunch.
  all: try (apply Hoff; reflexivity).
  all: try (apply Hscanning; reflexivity).
  all: try (apply Hlocate; reflexivity).
  all: try (lazymatch goal with
            | |- _ (Returned, _, ?l) =>
                let tl := after l (QueueAdd ScanTask) in
                eapply (Herror _ tl); reflexivity
            end).
  all: try (lazymatch goal with
            | |- _ (Thrown, _, ?l) =>
                let rc := after l (SetTimeout (freqOf config) (AddToQueue MainTask)) in
                eapply (Hstale _ rc); (reflexivity || discriminate)
            end).
  all: try (lazymatch goal with
            | |- _ (Returned, _, ?l) =>
                let l1 := after l (SetTimeout (freqOf config) (AddToQueue MainTask)) in
                let rc := before l1 (Log info "connect to") in
                let l2 := after l1 Connect in
                let mid := before l2 (Sleep (1000 * 3)) in
                let l3 := after l2 (Sleep (1000 * 3)) in
                let bk := before l3 (QueueAdd MainTask) in
                let af := after l3 (QueueAdd MainTask) in
                eapply (Hnoconnect _ rc mid bk af); (reflexivity || discriminate)
            end).
  all: try (lazymatch goal with
            | |- _ (Thrown, _, ?l) =>
                let l1 := after l (SetTimeout (freqOf config) (AddToQueue MainTask)) in
                let rc := before l1 (Log info "connect to") in
                let rd := after l1 DiscoverCharacteristics in
                eapply (Hreadfail _ rc rd); (reflexivity || (left; reflexivity)
                                              || (right; reflexivity))
            end).
  all: try (lazymatch goal with
            | |- _ (Returned, _, ?l) =>
                let l1 := after l (SetTimeout (freqOf config) (AddToQueue MainTask)) in
                let rc := before l1 (Log info "connect to") in
                let l2 := after l1 DiscoverCharacteristics in
                let rd := before l2 (Sleep (1000 * 3)) in
                let l3 := after l2 (Sleep (1000 * 3)) in
                let bk := before l3 (QueueAdd MainTask) in
                let af := after l3 (QueueAdd MainTask) in
                eapply (Hreadtimeout _ rc rd bk af); reflexivity
            end).
  all: lazymatch goal with
       | |- context [afterRead ?c ?e ?pe ?b ?q] =>
           let o := fresh "o" in
           let q' := fresh "q'" in
           let t := fresh "t" in
           let E := fresh "E" in
           destruct (afterRead c e pe b q) as [[o q'] t] eqn:E;
           lazymatch goal with
           | |- _ (_, _, ?l) =>
               let l1 := after l (SetTimeout (freqOf config) (AddToQueue MainTask)) in
               let rc := before l1 (Log info "connect to") in
               let l2 := after l1 DiscoverCharacteristics in
               let rd := prefix_of l2 t in
               eapply (Hread _ _ rc rd o q' t); (reflexivity || exact E)
           end
       end.
Qed.

Lemma link_quiet (l : list Event) : forallb isLinkEvent l = true -> quiet l.
Proof.
  intros H. split; apply (existsb_excluded isLinkEvent); try exact H; by_kind.
Qed.

(** The tail of [main] writes [_lastState] and nothing else, and leaves
    only log lines, sink calls and its closing sleep in the trace. *)
Lemma afterRead_frame (classify : Q -> Z -> Z -> Z -> Z) (env : Env)
      (peri : Peripheral) (buf : Buffer) (q q' : Plugin) (o : Outcome unit)
      (t : list Event) :
  afterRead classify env peri buf q = (o, q', t) ->
  q' = set_lastState q (_lastState q') /\ forallb isSinkEvent t = true.
Proof.
  intros H.
  destruct (afterRead_cases classify env peri buf q)
    as [[_ E]|[(r & _ & _ & E)|(r & q1 & tp & _ & _ & Ep & E)]];
    rewrite E in H; injection H as <- <- <-.
  - split; [now destruct q | reflexivity].
  - split; [now destruct q | reflexivity].
  - destruct (publish_shape classify r q) as (q2 & tp2 & Ep2 & Hpub & Hq).
    rewrite Ep in Ep2. injection Ep2 as <- <-.
    split; [exact Hq|].
    cbn [forallb isSinkEvent]. rewrite !forallb_app.
    rewrite (forallb_weaken isPublisherEvent isSinkEvent tp) by (by_kind || exact Hpub).
    unfold influxTrace.
    destruct (_influx q), (influxThrows env), (flushReached (background env));
      reflexivity.
Qed.

Lemma clearTrace_quiet (p : Plugin) : quiet (clearTrace p).
Proof. unfold clearTrace. destruct (_mainTimer p); split; reflexivity. Qed.

Ltac quiet_trace :=
  repeat first
    [ apply clearTrace_quiet
    | apply link_quiet; assumption
    | apply quiet_app
    | apply quiet_cons; [reflexivity | reflexivity |]
    | split; reflexivity ].

(** X1: one call of [main] hands something to the publisher or to
    InfluxDB, or writes [_lastState], only if the radio was on, a
    peripheral was cached, the stale-state block passed, the connect
    resolved in time and the buffer read decoded to a reading without the
    0xFFFF marker; on every other path the trace has no sink call and
    [_lastState] is as before. *)
Theorem main_publishes_only_a_valid_reading :
  forall (config : Config) (env : Env) (p : Plugin),
    (quiet (snd (main config env p))
     /\ _lastState (snd (fst (main config env p))) = _lastState p)
    \/ exists peri buf r,
        _peripheral p = Some peri
        /\ isPoweredOn (nobleState env) = true
        /\ reconcilePasses env = true
        /\ connectRace env = ConnectResolved
        /\ bufferRead env = Some buf
        /\ decodePayload (host env) buf = Some r
        /\ isSentinel r = false.
Proof.
  intros config env p. pattern (main config env p). apply main_paths;
    intros; cbn [fst snd];
    try (left; split; [quiet_trace | reflexivity]).
  destruct (afterRead_cases airQuality env peri buf
              (set_mainTimer p (Some (freqOf config))))
    as [[Hd E]|[(r & Hd & Hs & E)|(r & q1 & tp & Hd & Hs & Ep & E)]];
    rewrite E in *.
  - left. match goal with H : (_, _, _) = (_, _, _) |- _ => injection H as <- <- <- end.
    split; [quiet_trace | reflexivity].
  - left. match goal with H : (_, _, _) = (_, _, _) |- _ => injection H as <- <- <- end.
    split; [quiet_trace | reflexivity].
  - right. exists peri, buf, r. repeat split; assumption.
Qed.

Lemma existsb_clearTrace (P : Event -> bool) (p : Plugin) :
  P (ClearTimeout MainTimerRef) = false -> existsb P (clearTrace p) = false.
Proof.
  intros H. unfold clearTrace. destruct (_mainTimer p); cbn; [now rewrite H | reflexivity].
Qed.

Lemma passes_not_error (env : Env) :
  reconcilePasses env = true -> periState env <> errorState.
Proof. unfold reconcilePasses. now destruct (periState env). Qed.

Ltac open_result :=
  match goal with
  | H : afterRead _ _ _ _ _ = (_, _, _) |- _ =>
      let Hq := fresh "Hq" in
      let Ht := fresh "Ht" in
      destruct (afterRead_frame _ _ _ _ _ _ _ _ H) as [Hq Ht]
  end.

(** Evaluates [existsb] of a kind over a trace built from [clearTrace],
    concrete events and pieces known to hold only link or sink events. *)
Ltac kind_false :=
  cbn [existsb app];
  repeat first
    [ rewrite existsb_app
    | rewrite existsb_clearTrace by reflexivity
    | match goal with
      | H : forallb isLinkEvent ?l = true |- context [existsb ?Q ?l] =>
          rewrite (existsb_excluded isLinkEvent Q l) by (by_kind || exact H)
      | H : forallb isSinkEvent ?l = true |- context [existsb ?Q ?l] =>
          rewrite (existsb_excluded isSinkEvent Q l) by (by_kind || exact H)
      end
    | progress cbn [existsb orb] ].

(** X2: [main] forgets the cached peripheral on exactly one path: the
    radio is on and the peripheral reports the state "error".  Then the call
    returns with [_peripheral] cleared and a scan queued, and never calls
    connect; on every other path, failed connects, failed reads and rejected
    calls among them, [_peripheral] is as before. *)
Theorem main_drops_handle_only_in_error_state :
  forall (config : Config) (env : Env) (p : Plugin),
    (isPoweredOn (nobleState env) = true
     /\ periState env = errorState
     /\ _peripheral p <> None
     /\ _peripheral (snd (fst (main config env p))) = None
     /\ fst (fst (main config env p)) = Returned
     /\ existsb queuesScan (snd (main config env p)) = true
     /\ existsb isConnect (snd (main config env p)) = false)
    \/ (_peripheral (snd (fst (main config env p))) = _peripheral p
        /\ (isPoweredOn (nobleState env) = false
            \/ periState env <> errorState
            \/ _peripheral p = None)).
Proof.
  intros config env p. pattern (main config env p). apply main_paths;
    intros; cbn [fst snd].
  - right. split; [reflexivity | now left].
  - right. split; [reflexivity | now right; right].
  - right. split; [reflexivity | now right; right].
  - left. repeat split; try assumption; try congruence.
    + rewrite existsb_app. cbn. apply orb_true_r.
    + kind_false. reflexivity.
  - right. split; [reflexivity | now right; left].
  - right. split; [reflexivity | right; left; now apply passes_not_error].
  - right. split; [reflexivity | right; left; now apply passes_not_error].
  - right. split; [reflexivity | right; left; now apply passes_not_error].
  - right. open_result. split; [now rewrite Hq | right; left; now apply passes_not_error].
Qed.

(** X3: a call of [main] rejects only when the stale-state block's
    disconnect or cancel fails, when the discovery or read rejects, or when
    the buffer read does not decode; a failing InfluxDB write never rejects
    it.  A rejected call has armed the next cycle's timer, kept the cached
    peripheral and [_lastState], and touched neither sink. *)
Theorem main_rejects_only_on_link_or_decode_failure :
  forall (config : Config) (env : Env) (p : Plugin),
    fst (fst (main config env p)) = Thrown ->
    ((reconcilePasses env = false /\ periState env <> errorState)
     \/ readRace env = ReadRejected
     \/ readRace env = ReadTimedOutThenRejected
     \/ exists buf, bufferRead env = Some buf
                    /\ decodePayload (host env) buf = None)
    /\ snd (fst (main config env p)) = set_mainTimer p (Some (freqOf config))
    /\ existsb armsMainTimer (snd (main config env p)) = true
    /\ quiet (snd (main config env p)).
Proof.
  intros config env p. pattern (main config env p). apply main_paths;
    intros; cbn [fst snd] in *; try discriminate.
  - split; [now left|]. split; [reflexivity|].
    split; [rewrite existsb_app; cbn; apply orb_true_r | quiet_trace].
  - split; [right; tauto|]. split; [reflexivity|].
    split; [rewrite existsb_app; cbn; apply orb_true_r | quiet_trace].
  - subst o.
    destruct (afterRead_cases airQuality env peri buf
                (set_mainTimer p (Some (freqOf config))))
      as [[Hd E]|[(r & Hd & Hs & E)|(r & q1 & tp & Hd & Hs & Ep & E)]];
      match goal with H : afterRead _ _ _ _ _ = _ |- _ => rewrite E in H;
                                                       try discriminate H;
                                                       injection H as <- <- end.
    split; [right; right; right; now exists buf|]. split; [reflexivity|].
    split; [rewrite existsb_app; cbn; apply orb_true_r | quiet_trace].
Qed.

(** X3 at a cycle whose characteristic discovery rejects. *)
Lemma main_rejects_only_on_link_or_decode_failure_witness :
  snd (fst (main sampleConfig
                 {| host := LittleEndian; nobleState := poweredOn;
                    periState := disconnected; staleDisconnectRejects := false;
                    staleCancelThrows := false; connectRace := ConnectResolved;
                    readRace := ReadRejected; closingDisconnectRejects := false;
                    influxThrows := false;
                    background := {| readCall := NeverCalled; lateBuffer := None;
                                     flushReached := false |} |} samplePlugin))
  = set_mainTimer samplePlugin (Some (freqOf sampleConfig)).
Proof.
  apply (main_rejects_only_on_link_or_decode_failure sampleConfig
           {| host := LittleEndian; nobleState := poweredOn;
              periState := disconnected; staleDisconnectRejects := false;
              staleCancelThrows := false; connectRace := ConnectResolved;
              readRace := ReadRejected; closingDisconnectRejects := false;
              influxThrows := false;
              background := {| readCall := NeverCalled; lateBuffer := None;
                               flushReached := false |} |} samplePlugin).
  reflexivity.
Defined.

Lemma getServices_set_lastState (p : Plugin) (s : LastState.t) :
  getServices (set_lastState p s) = getServices p.
Proof. reflexivity. Qed.

(** X4: [getServices] returns the information service first and then,
    in the fixed order air quality, CO2, humidity, temperature, exactly the
    sensors whose [disable] flag is not set; and no call of [main],
    [scan], [onDiscover] or the scan's timeout changes what it returns,
    nor does [main] touch [_scanning]. *)
Theorem getServices_fixed_at_construction :
  forall (config : Config),
    getServices (constructor config)
    = AccessoryInformation
        :: (if disableAQ config then [] else [AirQualitySensor])
        ++ (if disableCO2 config then [] else [CarbonDioxideSensor])
        ++ (if disableHumidity config then [] else [HumiditySensor])
        ++ (if disableTemp config then [] else [TemperatureSensor])
    /\ forall (env : Env) (h : ByteOrder) (peripheral : Peripheral) (p : Plugin),
        getServices (snd (fst (main config env p))) = getServices p
        /\ _scanning (snd (fst (main config env p))) = _scanning p
        /\ getServices (snd (fst (scan p))) = getServices p
        /\ getServices (snd (fst (scanTimedOut p))) = getServices p
        /\ getServices (snd (fst (onDiscover config h peripheral p))) = getServices p.
Proof.
  intros config. split.
  - unfold getServices, constructor. cbn [_aqService _co2Service _humidityService
                                          _tempService].
    destruct (disableAQ config), (disableCO2 config), (disableHumidity config),
      (disableTemp config); reflexivity.
  - intros env h peripheral p.
    split; [|split; [|split; [|split]]].
    + pattern (main config env p). apply main_paths; intros; cbn [fst snd];
        try reflexivity.
      open_result. rewrite Hq. reflexivity.
    + pattern (main config env p). apply main_paths; intros; cbn [fst snd];
        try reflexivity.
      open_result. rewrite Hq. reflexivity.
    + unfold scan. run. destruct (_scanning p); reflexivity.
    + reflexivity.
    + destruct (onDiscover_cases config h peripheral p)
        as [[E _]|[[E _]|(md & _ & _ & _ & _ & E & _)]]; rewrite E; reflexivity.
Qed.

(** X5: every call of [main] leaves behind something that runs [main]
    again, its timer or a queued task ending in [main], except one: with the
    radio on, no cached peripheral and a scan in progress it clears the
    pending timer and returns with nothing scheduled. *)
Theorem main_schedules_the_next_cycle :
  forall (config : Config) (env : Env) (p : Plugin),
    existsb schedulesMain (snd (main config env p))
    = negb (isPoweredOn (nobleState env)
            && match _peripheral p with None => true | Some _ => false end
            && _scanning p).
Proof.
  intros config env p. pattern (main config env p). apply main_paths;
    intros; cbn [fst snd]; try open_result;
    repeat match goal with
           | H : isPoweredOn _ = _ |- _ => rewrite H
           | H : _peripheral _ = _ |- _ => rewrite H
           | H : _scanning _ = _ |- _ => rewrite H
           end; cbn [andb negb];
    kind_false; rewrite ?andb_false_r; reflexivity.
Qed.

Lemma filter_excluded (P Q : Event -> bool) (l : list Event) :
  (forall e, P e = true -> Q e = false) ->
  forallb P l = true -> filter Q l = [].
Proof.
  intros H. induction l as [|e l IH]; cbn; [reflexivity|].
  intros Hl. apply andb_true_iff in Hl as [He Hl].
  now rewrite (H e He), IH.
Qed.

Lemma filter_clearTrace (P : Event -> bool) (p : Plugin) :
  P (ClearTimeout MainTimerRef) = false -> filter P (clearTrace p) = [].
Proof.
  intros H. unfold clearTrace. destruct (_mainTimer p); cbn; [now rewrite H | reflexivity].
Qed.

Ltac filter_kind :=
  cbn [filter app];
  repeat first
    [ rewrite filter_app
    | rewrite filter_clearTrace by reflexivity
    | match goal with
      | H : forallb isLinkEvent ?l = true |- context [filter ?Q ?l] =>
          rewrite (filter_excluded isLinkEvent Q l) by (by_kind || exact H)
      | H : forallb isSinkEvent ?l = true |- context [filter ?Q ?l] =>
          rewrite (filter_excluded isSinkEvent Q l) by (by_kind || exact H)
      end
    | progress cbn [filter app armsMainTimer] ].

Lemma freqOf_floor (config : Config) (n : Z) : freqOf config = Ms n -> 60000 <= n.
Proof.
  unfold freqOf. destruct (frequency config) as [f|]; [|discriminate].
  intros H. assert (n = 1000 * Z.max 60 f) by congruence. lia.
Qed.

(** X6: a call of [main] arms its timer at most once, and then records
    it in [_mainTimer]: for 10 s when the radio is off, and otherwise for
    [1000 * max(60, frequency)] ms, never less than a minute (NaN when no
    frequency is configured).  A timer recorded on entry is cleared before
    anything else happens. *)
Theorem main_arms_one_timer :
  forall (config : Config) (env : Env) (p : Plugin),
    (exists rest, snd (main config env p) = clearTrace p ++ rest
                  /\ existsb (fun e => match e with ClearTimeout _ => true | _ => false end)
                             rest = false)
    /\ ((filter armsMainTimer (snd (main config env p)) = []
         /\ _mainTimer (snd (fst (main config env p))) = _mainTimer p)
        \/ exists d,
            filter armsMainTimer (snd (main config env p))
            = [SetTimeout d (AddToQueue MainTask)]
            /\ _mainTimer (snd (fst (main config env p))) = Some d
            /\ ((d = Ms (1000 * 10) /\ isPoweredOn (nobleState env) = false)
                \/ (d = freqOf config /\ isPoweredOn (nobleState env) = true))
            /\ forall n, d = Ms n -> 10000 <= n
                                     /\ (isPoweredOn (nobleState env) = true -> 60000 <= n)).
Proof.
  intros config env p. pattern (main config env p). apply main_paths;
    intros; cbn [fst snd]; try open_result.
  2: { split.
       - exists []. split; [now rewrite app_nil_r | reflexivity].
       - left. split; [now apply filter_clearTrace | reflexivity]. }
  2: { split.
       - eexists. split; [reflexivity | reflexivity].
       - left. split; [filter_kind; reflexivity | reflexivity]. }
  - split; [eexists; split; [reflexivity | reflexivity]|].
    right. exists (Ms (1000 * 10)).
    split; [filter_kind; reflexivity|]. split; [reflexivity|].
    split; [now left|]. intros n Hn. assert (n = 1000 * 10) by congruence. split; [lia | congruence].
  - split; [eexists; split; [reflexivity | kind_false; reflexivity]|].
    right. exists (freqOf config).
    split; [filter_kind; reflexivity|]. split; [reflexivity|].
    split; [now right|]. intros n Hn. pose proof (freqOf_floor config n Hn). lia.
  - split; [eexists; split; [reflexivity | kind_false; reflexivity]|].
    right. exists (freqOf config).
    split; [filter_kind; reflexivity|]. split; [reflexivity|].
    split; [now right|]. intros n Hn. pose proof (freqOf_floor config n Hn). lia.
  - split; [eexists; split; [reflexivity | kind_false; reflexivity]|].
    right. exists (freqOf config).
    split; [filter_kind; reflexivity|]. split; [reflexivity|].
    split; [now right|]. intros n Hn. pose proof (freqOf_floor config n Hn). lia.
  - split; [eexists; split; [reflexivity | kind_false; reflexivity]|].
    right. exists (freqOf config).
    split; [filter_kind; reflexivity|]. split; [reflexivity|].
    split; [now right|]. intros n Hn. pose proof (freqOf_floor config n Hn). lia.
  - split; [eexists; split; [reflexivity | kind_false; reflexivity]|].
    right. exists (freqOf config).
    split; [filter_kind; reflexivity|]. split; [reflexivity|].
    split; [now right|]. intros n Hn. pose proof (freqOf_floor config n Hn). lia.
  - split; [eexists; split; [reflexivity | kind_false; reflexivity]|].
    right. exists (freqOf config).
    split; [filter_kind; reflexivity|]. split; [now rewrite Hq|].
    split; [now right|]. intros n Hn. pose proof (freqOf_floor config n Hn). lia.
Qed.

Lemma error_does_not_pass (env : Env) :
  periState env = errorState -> reconcilePasses env = false.
Proof. unfold reconcilePasses. now intros ->. Qed.

(** X7: [main] calls [connectAsync] exactly when the radio is on, a
    peripheral is cached and the stale-state block passes; and with the
    radio off or no peripheral cached it makes no radio call at all. *)
Theorem main_connects_only_with_power_and_handle :
  forall (config : Config) (env : Env) (p : Plugin),
    existsb isConnect (snd (main config env p))
    = isPoweredOn (nobleState env)
      && match _peripheral p with Some _ => true | None => false end
      && reconcilePasses env
    /\ (isPoweredOn (nobleState env)
        && match _peripheral p with Some _ => true | None => false end = false ->
        existsb isRadioEvent (snd (main config env p)) = false).
Proof.
  intros config env p. pattern (main config env p). apply main_paths;
    intros; cbn [fst snd]; try open_result;
    repeat match goal with
           | H : isPoweredOn _ = _ |- _ => rewrite H
           | H : _peripheral _ = _ |- _ => rewrite H
           | H : reconcilePasses _ = _ |- _ => rewrite H
           | H : periState _ = errorState |- _ =>
               rewrite (error_does_not_pass _ H)
           end; cbn [andb];
    (split; [kind_false; rewrite ?orb_true_r; reflexivity
            | try discriminate; intros _; kind_false; reflexivity]).
Qed.

Lemma teardown_quiet (l : list Event) : forallb isTeardown l = true -> quiet l.
Proof.
  intros H. split; apply (existsb_excluded isTeardown); try exact H; by_kind.
Qed.

Lemma connectPhase_failed (env : Env) (q : Plugin) :
  connectRace env <> ConnectResolved ->
  exists a b c,
    connectPhase env q
    = (Returned, q, Connect :: a ++ Sleep (1000 * 3) :: b ++ QueueAdd MainTask :: c)
    /\ existsb isCleanup a = true
    /\ forallb isTeardown (a ++ b ++ c) = true
    /\ (forall ct, connectRace env = ConnectRejected (CleanupInTime ct) ->
          a = [Log error ""; Disconnect] /\ b = timerArm ct /\ c = []).
Proof.
  intros H. unfold connectPhase, timerSide, timerArm, retryShortly, lateCatch.
  destruct (connectRace env) as [|[ct|ct]|ct late]; [congruence|..];
    destruct ct; try destruct late as [|[| |]|]; run; cbn [samePeriod app];
    lazymatch goal with
    | |- exists a b c, (_, _, Connect :: ?l) = _ /\ _ =>
        let a := before l (Sleep (1000 * 3)) in
        let l1 := after l (Sleep (1000 * 3)) in
        let b := before l1 (QueueAdd MainTask) in
        let c := after l1 (QueueAdd MainTask) in
        exists a, b, c;
        (split; [reflexivity|]); (split; [reflexivity|]); (split; [reflexivity|]);
        intros ct' Hct; try discriminate Hct; injection Hct as <-;
        repeat split; reflexivity
    end.
Qed.

(** X8: a connect that does not resolve within 3 s, whether it rejected
    or is still pending, is followed by a cleanup call on the peripheral
    ([disconnectAsync] or [cancelConnect]), then by a 3 s sleep, then by a
    queued [main]; the call returns normally, reaches neither sink, and
    keeps the cached peripheral and [_lastState].  Beside these calls the
    trace after the connect holds only log lines, cancels and disconnects of
    the two sides of the race, before the sleep, during it or after the
    queued retry.  The timer of the race is never cancelled: when the
    connect rejected and its cleanup was over before the timer, the timer
    fires during the sleep and warns and cancels there. *)
Theorem failed_connect_is_cleaned_up_and_retried :
  forall (config : Config) (env : Env) (p : Plugin) (peri : Peripheral),
    _peripheral p = Some peri ->
    isPoweredOn (nobleState env) = true ->
    reconcilePasses env = true ->
    connectRace env <> ConnectResolved ->
    exists pre a b c,
      main config env p
      = (Returned, set_mainTimer p (Some (freqOf config)),
         pre ++ Connect :: a ++ Sleep (1000 * 3) :: b ++ QueueAdd MainTask :: c)
      /\ existsb isCleanup a = true
      /\ forallb isTeardown (a ++ b ++ c) = true
      /\ (forall ct, connectRace env = ConnectRejected (CleanupInTime ct) ->
            a = [Log error ""; Disconnect]
            /\ b = [Log warn "connect has timed out."; CancelConnect]
                     ++ (if ct then [Log error ""] else [])
            /\ c = [])
      /\ forallb isPreamble pre = true
      /\ existsb isConnect pre = false
      /\ quiet (pre ++ Connect :: a ++ Sleep (1000 * 3) :: b
                     ++ QueueAdd MainTask :: c).
Proof.
  intros config env p peri Hperi Hon Hrec Hcon.
  destruct (connectPhase_failed env (set_mainTimer p (Some (freqOf config))) Hcon)
    as (a & b & c & Hphase & Hclean & Hlink & Hexact).
  destruct (main_stops_in_connectPhase config env p peri _ _ Hperi Hon Hrec Hphase)
    as (pre & Hpre & Hmain).
  exists pre, a, b, c.
  split; [exact Hmain|]. split; [exact Hclean|]. split; [exact Hlink|].
  split; [exact Hexact|]. split; [exact Hpre|].
  split; [apply (existsb_excluded isPreamble); [by_kind | exact Hpre]|].
  rewrite !forallb_app in Hlink.
  apply andb_true_iff in Hlink as [Ha Hbc].
  apply andb_true_iff in Hbc as [Hb Hc].
  apply quiet_app; [now apply preamble_quiet|].
  apply quiet_cons; [reflexivity | reflexivity |].
  apply quiet_app; [now apply teardown_quiet|].
  apply quiet_cons; [reflexivity | reflexivity |].
  apply quiet_app; [now apply teardown_quiet|].
  apply quiet_cons; [reflexivity | reflexivity |].
  now apply teardown_quiet.
Qed.

(** X8 at a cycle whose connect rejects and is cleaned up before the 3 s
    timer, which then fires while [main] sleeps. *)
Lemma failed_connect_is_cleaned_up_and_retried_witness :
  exists pre,
    main sampleConfig
         {| host := LittleEndian; nobleState := poweredOn;
            periState := disconnected; staleDisconnectRejects := false;
            staleCancelThrows := false;
            connectRace := ConnectRejected (CleanupInTime false);
            readRace := ReadRejected; closingDisconnectRejects := false;
            influxThrows := false;
            background := {| readCall := NeverCalled; lateBuffer := None;
                             flushReached := false |} |} samplePlugin
    = (Returned, set_mainTimer samplePlugin (Some (freqOf sampleConfig)),
       pre ++ [Connect; Log error ""; Disconnect; Sleep (1000 * 3);
               Log warn "connect has timed out."; CancelConnect;
               QueueAdd MainTask]).
Proof.
  destruct (failed_connect_is_cleaned_up_and_retried sampleConfig
              {| host := LittleEndian; nobleState := poweredOn;
                 periState := disconnected; staleDisconnectRejects := false;
                 staleCancelThrows := false;
                 connectRace := ConnectRejected (CleanupInTime false);
                 readRace := ReadRejected; closingDisconnectRejects := false;
                 influxThrows := false;
                 background := {| readCall := NeverCalled; lateBuffer := None;
                                  flushReached := false |} |}
              samplePlugin samplePeripheral eq_refl eq_refl eq_refl)
    as (pre & a & b & c & Hmain & _ & _ & Hexact & _).
  - discriminate.
  - destruct (Hexact false eq_refl) as (Ha & Hb & Hc).
    rewrite Ha, Hb, Hc in Hmain.
    exists pre. exact Hmain.
Defined.

(** X9: when the characteristic has not been read 3 s after the connect
    and the read does not finish during the cleanup either, [main] warns,
    disconnects, sleeps 3 s, queues itself and returns; it reaches neither
    sink and keeps the cached peripheral and [_lastState].  [readAsync] is
    called before the warning exactly when the discovery resolved in time.
    After the timer side's disconnect the trace holds, beside the sleep and
    the queued retry, only what the reading side still does: [readAsync]
    once a late discovery resolves and a disconnect once a late read
    completes; over the whole cycle [readAsync] is called at most once. *)
Theorem read_timeout_disconnects_and_retries :
  forall (config : Config) (env : Env) (p : Plugin) (peri : Peripheral),
    _peripheral p = Some peri ->
    isPoweredOn (nobleState env) = true ->
    reconcilePasses env = true ->
    connectRace env = ConnectResolved ->
    readRace env = ReadTimedOut None ->
    exists pre a b c d,
      main config env p
      = (Returned, set_mainTimer p (Some (freqOf config)),
         pre ++ [Connect; UpdateRssi; DiscoverCharacteristics]
             ++ a ++ [Log warn "get collection has timed out."; Disconnect]
             ++ b ++ Sleep (1000 * 3) :: c ++ QueueAdd MainTask :: d)
      /\ a = match readCall (background env) with
             | CalledInTime => [ReadCharacteristic]
             | _ => []
             end
      /\ forallb isReadSide (b ++ c ++ d) = true
      /\ (List.length (filter isRead (a ++ b ++ c ++ d)) <= 1)%nat
      /\ quiet pre /\ existsb isConnect pre = false.
Proof.
  intros config env p peri Hperi Hon Hrec Hcon Hread.
  unfold main, armMainTimer, reconcile, connectPhase, readPhase, retryShortly,
    readCalled, lateDisconnect, calledBy.
  unfold reconcilePasses in Hrec.
  rewrite Hcon, Hread. run. rewrite Hperi, Hon. cbn [negb].
  destruct (periState env); try discriminate Hrec;
    try (apply negb_true_iff in Hrec; rewrite Hrec);
    destruct (_mainTimer p);
    destruct (readCall (background env)) as [| |[| |]];
    destruct (lateBuffer (background env)) as [[| |]|];
    run; cbn [samePeriod andb app];
    lazymatch goal with
    | |- exists pre a b c d, (_, _, ?l) = _ /\ _ =>
        let pre := before l Connect in
        let l1 := after l DiscoverCharacteristics in
        let a := before l1 (Log warn "get collection has timed out.") in
        let l2 := after l1 (Log warn "get collection has timed out.") in
        let l3 := after l2 Disconnect in
        let b := before l3 (Sleep (1000 * 3)) in
        let l4 := after l3 (Sleep (1000 * 3)) in
        let c := before l4 (QueueAdd MainTask) in
        let d := after l4 (QueueAdd MainTask) in
        exists pre, a, b, c, d;
        (split; [reflexivity|]); (split; [reflexivity|]); (split; [reflexivity|]);
        (split; [cbn; lia|]); split; [split; reflexivity | reflexivity]
    end.
Qed.

(** X9 at a cycle whose discovery resolves and whose read never answers. *)
Lemma read_timeout_disconnects_and_retries_witness :
  exists pre b c d,
    main sampleConfig (withReadRace (sampleEnv []) (ReadTimedOut None)) samplePlugin
    = (Returned, set_mainTimer samplePlugin (Some (freqOf sampleConfig)),
       pre ++ [Connect; UpdateRssi; DiscoverCharacteristics; ReadCharacteristic;
               Log warn "get collection has timed out."; Disconnect]
           ++ b ++ Sleep (1000 * 3) :: c ++ QueueAdd MainTask :: d).
Proof.
  destruct (read_timeout_disconnects_and_retries sampleConfig
              (withReadRace (sampleEnv []) (ReadTimedOut None)) samplePlugin
              samplePeripheral eq_refl eq_refl eq_refl eq_refl eq_refl)
    as (pre & a & b & c & d & Hmain & Ha & _).
  cbn in Ha. rewrite Ha in Hmain.
  exists pre, b, c, d. exact Hmain.
Defined.

Lemma sinkCalls_app (t1 t2 : list Event) :
  sinkCalls (t1 ++ t2) = sinkCalls t1 ++ sinkCalls t2.
Proof. apply filter_app. Qed.

Lemma sinkCalls_quiet (t : list Event) : quiet t -> sinkCalls t = [].
Proof.
  unfold quiet, sinkCalls. induction t as [|e t IH]; cbn; [reflexivity|].
  intros [H1 H2]. apply orb_false_iff in H1 as [He1 Ht1].
  apply orb_false_iff in H2 as [He2 Ht2].
  rewrite He1, He2. cbn. now apply IH.
Qed.

(** X10: a buffer that arrives after the 3 s read timer, while the timer
    side still waits for its disconnect, is used like one that arrived in
    time: the call ends with the same outcome and the same fields, and
    makes the same publisher and InfluxDB calls. *)
Theorem late_read_is_still_published :
  forall (config : Config) (env : Env) (p : Plugin) (peri : Peripheral)
         (buf : Buffer),
    _peripheral p = Some peri ->
    isPoweredOn (nobleState env) = true ->
    reconcilePasses env = true ->
    connectRace env = ConnectResolved ->
    fst (main config (withReadRace env (ReadTimedOut (Some buf))) p)
    = fst (main config (withReadRace env (ReadInTime buf)) p)
    /\ sinkCalls (snd (main config (withReadRace env (ReadTimedOut (Some buf))) p))
       = sinkCalls (snd (main config (withReadRace env (ReadInTime buf)) p)).
Proof.
  intros config env p peri buf Hperi Hon Hrec Hcon.
  destruct (afterRead airQuality (withReadRace env (ReadInTime buf)) peri buf
              (set_mainTimer p (Some (freqOf config)))) as [[o q'] t] eqn:E.
  assert (E' : afterRead airQuality (withReadRace env (ReadTimedOut (Some buf)))
                 peri buf (set_mainTimer p (Some (freqOf config))) = (o, q', t))
    by exact E.
  destruct (main_reaches_afterRead config (withReadRace env (ReadInTime buf)) p
              peri buf o q' t Hperi Hon Hrec Hcon eq_refl E) as (pre1 & Hq1 & ->).
  destruct (main_reaches_afterRead config
              (withReadRace env (ReadTimedOut (Some buf))) p
              peri buf o q' t Hperi Hon Hrec Hcon eq_refl E') as (pre2 & Hq2 & ->).
  cbn [fst snd]. split; [reflexivity|].
  now rewrite !sinkCalls_app, (sinkCalls_quiet pre1), (sinkCalls_quiet pre2).
Qed.

(** X10 at the sample payload arriving late. *)
Lemma late_read_is_still_published_witness :
  sinkCalls (snd (main sampleConfig
                       (withReadRace (sampleEnv []) (ReadTimedOut (Some samplePayload)))
                       samplePlugin))
  = sinkCalls (snd (main sampleConfig
                         (withReadRace (sampleEnv []) (ReadInTime samplePayload))
                         samplePlugin)).
Proof.
  apply (late_read_is_still_published sampleConfig (sampleEnv []) samplePlugin
           samplePeripheral samplePayload eq_refl eq_refl eq_refl eq_refl).
Defined.

Lemma filter_publisher_only (P : Event -> bool) (l : list Event) :
  (forall e, isPublisherEvent e = true -> P e = true) ->
  forallb isPublisherEvent l = true -> filter P l = l.
Proof.
  intros H. induction l as [|e l IH]; cbn; [reflexivity|].
  intros Hl. apply andb_true_iff in Hl as [He Hl].
  now rewrite (H e He), IH.
Qed.

(** X11: for a decoded reading without the 0xFFFF marker the tail of
    [main] always runs to its end.  It makes exactly the publisher calls of
    the publish block; with InfluxDB configured it calls [writePoint] with
    one point named "air-quality" with the eight fields rssi, humidity,
    radonStAvg, radonLtAvg, temp, pressure, co2 and voc and then, unless
    [writePoint] threw, [flush]; it makes no InfluxDB call otherwise.  A
    throwing [writePoint] or a rejecting [flush] is logged as an error, and
    changes neither the outcome nor the fields nor the publisher calls. *)
Theorem telemetry_failure_is_not_fatal :
  forall (classify : Q -> Z -> Z -> Z -> Z) (env : Env) (peri : Peripheral)
         (buf : Buffer) (q : Plugin) (r : Reading),
    decodePayload (host env) buf = Some r ->
    isSentinel r = false ->
    exists q' tp t,
      publish classify r q = (Next tt, q', tp)
      /\ afterRead classify env peri buf q = (Next tt, q', t)
      /\ filter isPublisherEvent t = tp
      /\ filter isTelemetryEvent t
         = (if _influx q
            then WritePoint "air-quality"
                   [ ("rssi"%string, inject_Z (rssi peri));
                     ("humidity"%string, humidity r);
                     ("radonStAvg"%string, inject_Z (radonStAvg r));
                     ("radonLtAvg"%string, inject_Z (radonLtAvg r));
                     ("temp"%string, temp r);
                     ("pressure"%string, pressure r);
                     ("co2"%string, inject_Z (co2 r));
                     ("voc"%string, inject_Z (voc r)) ]
                 :: (if influxThrows env && negb (flushReached (background env))
                     then []
                     else [Flush])
            else [])
      /\ (In (Log error "") t <-> _influx q && influxThrows env = true).
Proof.
  intros classify env peri buf q r Hdec Hs.
  destruct (afterRead_cases classify env peri buf q)
    as [[Hd _]|[(r' & Hd & Hs' & _)|(r' & q' & tp & Hd & _ & Ep & E)]];
    rewrite Hdec in Hd; try discriminate Hd; injection Hd as <-;
    [congruence|].
  destruct (publish_shape classify r q) as (q2 & tp2 & Ep2 & Hpub & _).
  rewrite Ep in Ep2. injection Ep2 as <- <-.
  exists q', tp. eexists. split; [exact Ep|]. split; [exact E|].
  assert (Hnolog : ~ In (Log error "") tp).
  { intros Hin. rewrite forallb_forall in Hpub. now specialize (Hpub _ Hin). }
  cbn [filter isPublisherEvent isTelemetryEvent]. rewrite !filter_app.
  rewrite (filter_publisher_only isPublisherEvent tp) by (auto || exact Hpub).
  rewrite (filter_excluded isPublisherEvent isTelemetryEvent tp)
    by (by_kind || exact Hpub).
  unfold influxTrace, pointOf.
  destruct (_influx q), (influxThrows env), (flushReached (background env));
    cbn; rewrite ?app_nil_r;
    (split; [reflexivity|]); (split; [reflexivity|]);
    (split; [intros [F|F]; [discriminate F|];
             apply in_app_or in F as [F|F]; [now apply Hnolog in F|];
             cbn in F; intuition (discriminate || eauto)
            | intros F; try discriminate F; right; apply in_or_app; right;
              cbn; tauto]).
Qed.

(** X11 at the sample payload with an InfluxDB client whose [flush]
    rejects. *)
Lemma telemetry_failure_is_not_fatal_witness :
  exists q' t,
    afterRead airQuality
      {| host := LittleEndian; nobleState := poweredOn; periState := disconnected;
         staleDisconnectRejects := false; staleCancelThrows := false;
         connectRace := ConnectResolved; readRace := ReadInTime samplePayload;
         closingDisconnectRejects := false; influxThrows := true;
         background := {| readCall := CalledInTime; lateBuffer := None;
                          flushReached := true |} |}
      samplePeripheral samplePayload samplePlugin = (Next tt, q', t)
    /\ filter isTelemetryEvent t
       = [WritePoint "air-quality"
            [ ("rssi"%string, inject_Z (rssi samplePeripheral));
              ("humidity"%string, (inject_Z 140 / 2)%Q);
              ("radonStAvg"%string, inject_Z 12);
              ("radonLtAvg"%string, inject_Z 9);
              ("temp"%string, (inject_Z 2500 / 100)%Q);
              ("pressure"%string, (inject_Z 50000 / 50)%Q);
              ("co2"%string, inject_Z 800);
              ("voc"%string, inject_Z 120) ];
          Flush]
    /\ In (Log error "") t.
Proof.
  destruct (telemetry_failure_is_not_fatal airQuality
              {| host := LittleEndian; nobleState := poweredOn;
                 periState := disconnected;
                 staleDisconnectRejects := false; staleCancelThrows := false;
                 connectRace := ConnectResolved; readRace := ReadInTime samplePayload;
                 closingDisconnectRejects := false; influxThrows := true;
                 background := {| readCall := CalledInTime; lateBuffer := None;
                                  flushReached := true |} |}
              samplePeripheral samplePayload samplePlugin
              {| humidity := inject_Z 140 / 2; radonStAvg := 12; radonLtAvg := 9;
                 temp := inject_Z 2500 / 100; pressure := inject_Z 50000 / 50;
                 co2 := 800; voc := 120 |} eq_refl eq_refl)
    as (q' & tp & t & _ & E & _ & Htel & Hlog).
  exists q', t. split; [exact E|]. split; [exact Htel|].
  apply Hlog. reflexivity.
Defined.

(** X12: a characteristic value shorter than 20 bytes makes the cycle
    reject: [struct.unpack] throws, nothing is published or written, and
    the plugin keeps its cached peripheral and [_lastState]; the only field
    written is the re-armed [_mainTimer]. *)
Theorem short_payload_rejects_the_cycle :
  forall (config : Config) (env : Env) (p : Plugin) (peri : Peripheral)
         (buf : Buffer),
    _peripheral p = Some peri ->
    isPoweredOn (nobleState env) = true ->
    reconcilePasses env = true ->
    connectRace env = ConnectResolved ->
    bufferRead env = Some buf ->
    (List.length buf < 20)%nat ->
    exists t,
      main config env p = (Thrown, set_mainTimer p (Some (freqOf config)), t)
      /\ quiet t.
Proof.
  intros config env p peri buf Hperi Hon Hrec Hcon Hbuf Hlen.
  assert (E : afterRead airQuality env peri buf (set_mainTimer p (Some (freqOf config)))
              = (Thrown, set_mainTimer p (Some (freqOf config)), [])).
  { unfold afterRead. now rewrite decodePayload_rejected. }
  destruct (main_reaches_afterRead config env p peri buf _ _ _
              Hperi Hon Hrec Hcon Hbuf E) as (pre & Hpre & Hmain).
  exists (pre ++ []). split; [exact Hmain|].
  apply quiet_app; [exact Hpre | split; reflexivity].
Qed.

(** X12 at a 19-byte value. *)
Lemma short_payload_rejects_the_cycle_witness :
  exists t,
    main sampleConfig (sampleEnv (firstn 19 samplePayload)) samplePlugin
    = (Thrown, set_mainTimer samplePlugin (Some (freqOf sampleConfig)), t)
    /\ quiet t.
Proof.
  destruct (short_payload_rejects_the_cycle sampleConfig
              (sampleEnv (firstn 19 samplePayload)) samplePlugin samplePeripheral
              (firstn 19 samplePayload) eq_refl eq_refl eq_refl eq_refl eq_refl)
    as (t & Hmain & Hq).
  - cbn. lia.
  - exists t. split; assumption.
Defined.

(** ** Ranges of the decoded values *)

Lemma u8_range (b : byte) : 0 <= u8 b <= 255.
Proof. unfold u8. pose proof (Byte.to_N_bounded b). lia. Qed.

Lemma wordAt_range (h : ByteOrder) (buf : Buffer) (i : nat) :
  0 <= wordAt h buf i <= 65535.
Proof.
  unfold wordAt, byteAt.
  pose proof (u8_range (nth i buf x00)). pose proof (u8_range (nth (S i) buf x00)).
  destruct h; lia.
Qed.

Lemma decoded_fields (h : ByteOrder) (buf : Buffer) (r : Reading) :
  decodePayload h buf = Some r ->
  humidity r = (inject_Z (byteAt buf 1) / 2)%Q
  /\ radonStAvg r = wordAt h buf 4
  /\ radonLtAvg r = wordAt h buf 6
  /\ temp r = (inject_Z (wordAt h buf 8) / 100)%Q
  /\ pressure r = (inject_Z (wordAt h buf 10) / 50)%Q
  /\ co2 r = wordAt h buf 12
  /\ voc r = wordAt h buf 14.
Proof.
  intros H.
  destruct (Nat.lt_ge_cases (List.length buf) 20) as [Hlt|Hge].
  - rewrite decodePayload_rejected in H by assumption. discriminate.
  - rewrite decodePayload_accepted in H by assumption. injection H as <-.
    cbn [readingOf humidity radonStAvg radonLtAvg temp pressure co2 voc field nth].
    rewrite !Z.mul_1_r. repeat split.
Qed.

Lemma scaled_range (z hi : Z) (d : positive) :
  0 <= z <= hi ->
  (0 <= inject_Z z / inject_Z (Z.pos d) <= inject_Z hi / inject_Z (Z.pos d))%Q.
Proof.
  intros [H1 H2]. split.
  - apply Qle_shift_div_l; [reflexivity|].
    rewrite Qmult_0_l. change 0%Q with (inject_Z 0). now rewrite <- Zle_Qle.
  - apply Qmult_le_compat_r;
      [now rewrite <- Zle_Qle | apply Qinv_le_0_compat; now unfold Qle].
Qed.

(** X13: every decoded reading has its integer values in 0..65535,
    humidity in 0..127.5, temperature in 0..655.35 and pressure in
    0..1310.7: the payload's fields are unsigned, so a temperature is never
    negative, and a humidity above 100 can come out of the decoder. *)
Theorem decoded_reading_ranges :
  forall (h : ByteOrder) (buf : Buffer) (r : Reading),
    decodePayload h buf = Some r ->
    0 <= radonStAvg r <= 65535
    /\ 0 <= radonLtAvg r <= 65535
    /\ 0 <= co2 r <= 65535
    /\ 0 <= voc r <= 65535
    /\ (0 <= humidity r <= 255 / 2)%Q
    /\ (0 <= temp r <= 65535 / 100)%Q
    /\ (0 <= pressure r <= 65535 / 50)%Q.
Proof.
  intros h buf r H.
  destruct (decoded_fields h buf r H) as (-> & -> & -> & -> & -> & -> & ->).
  repeat (split; [apply wordAt_range|]).
  split; [|split].
  - apply (scaled_range (byteAt buf 1) 255 2). apply u8_range.
  - apply (scaled_range (wordAt h buf 8) 65535 100). apply wordAt_range.
  - apply (scaled_range (wordAt h buf 10) 65535 50). apply wordAt_range.
Qed.

(** X13 at a payload of twenty 0xFF bytes: humidity 127.5 is decoded. *)
Lemma decoded_reading_ranges_witness :
  exists r,
    decodePayload LittleEndian (repeat xff 20) = Some r
    /\ (0 <= humidity r <= 255 / 2)%Q
    /\ humidity r = (inject_Z 255 / 2)%Q.
Proof.
  pose proof (decodePayload_accepted LittleEndian (repeat xff 20) (Nat.le_refl 20))
    as E.
  set (r := readingOf _) in E.
  exists r. split; [exact E|].
  split; [|reflexivity].
  apply (decoded_reading_ranges LittleEndian (repeat xff 20) r E).
Defined.

(** ** The tail of [main] in src/unnamed/part_000 *)

Ltac part000_tail :=
  unfold Part000.afterRead; run.

(** X14: the copy src/unnamed/part_000 has no 0xFFFF test: every
    decoded reading goes through the publish block, a co2 of 65535
    included.  After publishing it disconnects; when that disconnect
    rejects the call returns without any InfluxDB call; otherwise, with
    InfluxDB configured, it calls [writePoint] and then, unless that call
    threw, [flush], and a throwing [writePoint] or a rejecting [flush]
    rejects the call.  In every case the publisher is already updated and
    [_lastState] already written. *)
Theorem part000_publishes_before_it_can_fail :
  forall (env : Env) (peri : Peripheral) (buf : Buffer) (q : Plugin) (r : Reading),
    decodePayload (host env) buf = Some r ->
    exists q' tp t,
      publish Part000.airQuality r q = (Next tt, q', tp)
      /\ Part000.afterRead env peri buf q
         = (if closingDisconnectRejects env then Returned
            else if _influx q && influxThrows env then Thrown
                 else Next tt,
            q', t)
      /\ filter isPublisherEvent t = tp
      /\ updatesOf CarbonDioxideLevel t
         = (if changedCO2 r q then [inject_Z (co2 r)] else [])
      /\ filter isTelemetryEvent t
         = (if negb (closingDisconnectRejects env) && _influx q
            then WritePoint "air-quality" (pointOf (rssi peri) r)
                 :: (if influxThrows env && negb (flushReached (background env))
                     then []
                     else [Flush])
            else []).
Proof.
  intros env peri buf q r Hdec.
  destruct (publish_shape Part000.airQuality r q) as (q' & tp & Ep & Hpub & Hq).
  destruct (publish_facets Part000.airQuality r q)
    as (q2 & tp2 & Ep2 & _ & _ & Hco2 & _).
  rewrite Ep in Ep2. injection Ep2 as <- <-.
  assert (Hfx : _influx q' = _influx q) by (now rewrite Hq).
  exists q', tp. part000_tail. rewrite Hdec. run. rewrite Ep. run.
  assert (Hupd : forall l, (forall e, In e l -> isPublisherEvent e = false) ->
                           updatesOf CarbonDioxideLevel (tp ++ l)
                           = if changedCO2 r q then [inject_Z (co2 r)] else []).
  { intros l Hl. unfold updatesOf in *. rewrite flat_map_app, Hco2.
    rewrite <- app_nil_r. f_equal.
    induction l as [|e l IH]; [reflexivity|]. cbn.
    rewrite IH by (intros; apply Hl; now right).
    specialize (Hl e (or_introl eq_refl)). now destruct e. }
  destruct (closingDisconnectRejects env); run; rewrite ?Hfx;
    destruct (_influx q); run; destruct (influxThrows env);
    try destruct (flushReached (background env)); cbn [andb negb]; run;
    eexists; (split; [reflexivity|]); (split; [reflexivity|]);
    cbn [filter isPublisherEvent isTelemetryEvent updatesOf flat_map app];
    rewrite !filter_app;
    rewrite (filter_publisher_only isPublisherEvent tp) by (auto || exact Hpub);
    rewrite (filter_excluded isPublisherEvent isTelemetryEvent tp)
      by (by_kind || exact Hpub);
    (split; [cbn; now rewrite app_nil_r|]);
    (split; [|reflexivity]);
    apply (Hupd (_ :: _));
    intros e He; cbn in He;
    repeat (destruct He as [<-|He]; [reflexivity|]); destruct He.
Qed.

(** X14 at the payload whose co2 word is 0xFFFF, after construction:
    65535 is handed to the CO2 characteristic. *)
Lemma part000_publishes_before_it_can_fail_witness :
  exists q' t o,
    Part000.afterRead (sampleEnv sentinelPayload) samplePeripheral sentinelPayload
                      samplePlugin = (o, q', t)
    /\ updatesOf CarbonDioxideLevel t = [inject_Z 65535].
Proof.
  destruct (part000_publishes_before_it_can_fail (sampleEnv sentinelPayload)
              samplePeripheral sentinelPayload samplePlugin
              {| humidity := inject_Z 140 / 2; radonStAvg := 12; radonLtAvg := 9;
                 temp := inject_Z 2500 / 100; pressure := inject_Z 50000 / 50;
                 co2 := 65535; voc := 120 |} eq_refl)
    as (q' & tp & t & _ & E & _ & Hco2 & _).
  exists q', t. eexists. split; [exact E | exact Hco2].
Defined.

(** ** How a scan ends *)

Lemma set_scanning_back (p : Plugin) :
  _scanning p = false -> set_scanning (set_scanning p true) false = p.
Proof. destruct p. cbn. now intros ->. Qed.

Lemma found_while_scanning (p : Plugin) (x : Peripheral) :
  _scanning p = false ->
  set_scanning (set_peripheral (set_scanning p true) (Some x)) false
  = set_peripheral p (Some x).
Proof. destruct p. cbn. now intros ->. Qed.

(** X15: a scan started from an idle plugin sets [_scanning], arms the
    50 s timeout, registers the listener and starts discovery; it ends in
    one of two ways, each of which stops discovery, removes the listener,
    clears the timeout and resolves the scan's promise 3 s later.  The
    timeout leaves the plugin exactly as it was before the scan; an
    advertisement either changes nothing, the scan going on, or caches the
    peripheral and clears [_scanning]. *)
Theorem scan_ends_by_timeout_or_discovery :
  forall (config : Config) (h : ByteOrder) (peripheral : Peripheral) (p : Plugin),
    _scanning p = false ->
    scan p
    = (Next tt, set_scanning p true,
       [Log info "scanning..."; SetTimeout (Ms (1000 * 50)) ScanTimedOut;
        OnDiscover; StartScanning])
    /\ scanTimedOut (set_scanning p true)
       = (Next tt, p,
          [Log warn "scan has timed out."; ClearTimeout ScanTimeoutRef;
           StopScanning; RemoveDiscoverListener;
           SetTimeout (Ms (1000 * 3)) ResolveScan])
    /\ (onDiscover config h peripheral (set_scanning p true)
        = (Next tt, set_scanning p true, [])
        \/ onDiscover config h peripheral (set_scanning p true)
           = (Thrown, set_scanning p true, [])
        \/ onDiscover config h peripheral (set_scanning p true)
           = (Next tt, set_peripheral p (Some peripheral),
              [Log info "found"; ClearTimeout ScanTimeoutRef; StopScanning;
               RemoveDiscoverListener; SetTimeout (Ms (1000 * 3)) ResolveScan])).
Proof.
  intros config h peripheral p Hidle. split; [|split].
  - unfold scan. run. now rewrite Hidle.
  - unfold scanTimedOut. run. now rewrite set_scanning_back.
  - destruct (onDiscover_cases config h peripheral (set_scanning p true))
      as [[E _]|[[E _]|(md & _ & _ & _ & _ & E & _)]].
    + now left.
    + right. now left.
    + right. right. rewrite E. now rewrite found_while_scanning.
Qed.

(** X15 at the sample plugin before its peripheral is cached. *)
Lemma scan_ends_by_timeout_or_discovery_witness :
  scanTimedOut (set_scanning (constructor sampleConfig) true)
  = (Next tt, constructor sampleConfig,
     [Log warn "scan has timed out."; ClearTimeout ScanTimeoutRef;
      StopScanning; RemoveDiscoverListener;
      SetTimeout (Ms (1000 * 3)) ResolveScan]).
Proof.
  apply (scan_ends_by_timeout_or_discovery sampleConfig LittleEndian
           samplePeripheral (constructor sampleConfig) eq_refl).
Defined.

Lemma le32At_range (md : Buffer) (i : nat) : 0 <= le32At md i < 4294967296.
Proof.
  unfold le32At, byteAt.
  pose proof (u8_range (nth i md x00)). pose proof (u8_range (nth (i + 1) md x00)).
  pose proof (u8_range (nth (i + 2) md x00)).
  pose proof (u8_range (nth (i + 3) md x00)). lia.
Qed.

(** X16: when the configured serial number is missing, has no leading
    decimal digits, is negative or is 2^32 or more, no advertisement is ever
    taken for the device: [onDiscover] leaves the plugin as it was and calls
    nothing, in both copies of the file. *)
Theorem unusable_serial_never_matches :
  forall (config : Config) (h : ByteOrder) (peripheral : Peripheral) (p : Plugin),
    (parseInt (serialNumber config) = None
     \/ exists n, parseInt (serialNumber config) = Some n
                  /\ (n < 0 \/ 4294967296 <= n)) ->
    (onDiscover config h peripheral p = (Next tt, p, [])
     \/ onDiscover config h peripheral p = (Thrown, p, []))
    /\ (Part000.onDiscover config h peripheral p = (Next tt, p, [])
        \/ Part000.onDiscover config h peripheral p = (Thrown, p, [])).
Proof.
  intros config h peripheral p Hbad.
  destruct (onDiscover_cases config h peripheral p)
    as [[E E']|[[E E']|(md & _ & _ & _ & Hser & _)]].
  - split; now left.
  - split; now right.
  - exfalso. pose proof (le32At_range md 2) as Hr.
    destruct Hbad as [Hnone|(n & Hn & Hout)]; rewrite Hser in *;
      [discriminate | injection Hn as <-; lia].
Qed.

(** X16 at a configuration without a serial number. *)
Lemma unusable_serial_never_matches_witness :
  onDiscover {| name := "My Wave Plus"; serialNumber := None; frequency := Some 60;
                disableAQ := false; disableCO2 := false; disableHumidity := false;
                disableTemp := false; influxURL := None; influxToken := None;
                influxOrg := None; influxBucket := None |}
             LittleEndian samplePeripheral (constructor sampleConfig)
  = (Next tt, constructor sampleConfig, [])
  \/ onDiscover {| name := "My Wave Plus"; serialNumber := None; frequency := Some 60;
                   disableAQ := false; disableCO2 := false; disableHumidity := false;
                   disableTemp := false; influxURL := None; influxToken := None;
                   influxOrg := None; influxBucket := None |}
                LittleEndian samplePeripheral (constructor sampleConfig)
     = (Thrown, constructor sampleConfig, []).
Proof.
  apply (unusable_serial_never_matches
           {| name := "My Wave Plus"; serialNumber := None; frequency := Some 60;
              disableAQ := false; disableCO2 := false; disableHumidity := false;
              disableTemp := false; influxURL := None; influxToken := None;
              influxOrg := None; influxBucket := None |}
           LittleEndian samplePeripheral (constructor sampleConfig)).
  left. reflexivity.
Defined.

(** ** The first reading after construction *)

Lemma nonneg_differs_from_init (x : Q) :
  (0 <= x)%Q -> Qneq x (inject_Z (-1)) = true.
Proof.
  intros Hx. unfold Qneq. destruct (Qeq_bool x (inject_Z (-1))) eqn:E; [|reflexivity].
  apply Qeq_bool_eq in E. rewrite E in Hx. now unfold Qle in Hx.
Qed.

(** X17: the first decoded reading after construction is published in
    full: [_lastState] starts at -1 in every field and no decoded value is
    negative, so each enabled facet gets exactly one update (air quality
    together with VOC), and each disabled facet none. *)
Theorem first_reading_is_published_in_full :
  forall (classify : Q -> Z -> Z -> Z -> Z) (config : Config) (h : ByteOrder)
         (buf : Buffer) (r : Reading),
    decodePayload h buf = Some r ->
    exists p' t,
      publish classify r (constructor config) = (Next tt, p', t)
      /\ updatesOf AirQuality t
         = (if disableAQ config then []
            else [inject_Z (classify (humidity r) (radonStAvg r) (co2 r) (voc r))])
      /\ updatesOf VOCDensity t
         = (if disableAQ config then [] else [inject_Z (voc r)])
      /\ updatesOf CarbonDioxideLevel t
         = (if disableCO2 config then [] else [inject_Z (co2 r)])
      /\ updatesOf CurrentRelativeHumidity t
         = (if disableHumidity config then [] else [humidity r])
      /\ updatesOf CurrentTemperature t
         = (if disableTemp config then [] else [temp r]).
Proof.
  intros classify config h buf r Hdec.
  destruct (publish_facets classify r (constructor config))
    as (p' & t & E & Haq & Hvoc & Hco2 & Hhum & Htemp & _).
  destruct (decoded_fields h buf r Hdec) as (Eh & _ & _ & Et & _ & Ec & Ev).
  assert (Hv : Zneq (voc r) (-1) = true).
  { unfold Zneq. pose proof (wordAt_range h buf 14).
    destruct (voc r =? -1) eqn:F; [apply Z.eqb_eq in F; lia | reflexivity]. }
  assert (Hc : Zneq (co2 r) (-1) = true).
  { unfold Zneq. pose proof (wordAt_range h buf 12).
    destruct (co2 r =? -1) eqn:F; [apply Z.eqb_eq in F; lia | reflexivity]. }
  assert (Hh : Qneq (humidity r) (inject_Z (-1)) = true).
  { apply nonneg_differs_from_init. rewrite Eh.
    apply (scaled_range (byteAt buf 1) 255 2). apply u8_range. }
  assert (Ht : Qneq (temp r) (inject_Z (-1)) = true).
  { apply nonneg_differs_from_init. rewrite Et.
    apply (scaled_range (wordAt h buf 8) 65535 100). apply wordAt_range. }
  unfold changedAQ, changedCO2, changedHumidity, changedTemp, constructor in *.
  cbn [_aqService _co2Service _humidityService _tempService _lastState
       LastState.aq LastState.voc LastState.co2 LastState.humidity LastState.temp
       LastState.init] in *.
  rewrite Hv, Hc, Hh, Ht, ?orb_true_r, ?andb_true_r in *.
  exists p', t. split; [exact E|].
  rewrite Haq, Hvoc, Hco2, Hhum, Htemp.
  destruct (disableAQ config), (disableCO2 config), (disableHumidity config),
    (disableTemp config); repeat split.
Qed.

(** X17 at the sample payload with every facet enabled. *)
Lemma first_reading_is_published_in_full_witness :
  exists r p' t,
    decodePayload LittleEndian samplePayload = Some r
    /\ publish airQuality r (constructor sampleConfig) = (Next tt, p', t)
    /\ updatesOf CarbonDioxideLevel t = [inject_Z (co2 r)]
    /\ updatesOf CurrentTemperature t = [temp r].
Proof.
  pose proof (decodePayload_accepted LittleEndian samplePayload (Nat.le_refl 20)) as Hr.
  set (r := readingOf _) in Hr.
  destruct (first_reading_is_published_in_full airQuality sampleConfig LittleEndian
              samplePayload r Hr) as (p' & t & E & _ & _ & Hco2 & _ & Htemp).
  exists r, p', t. repeat split; assumption.
Defined.
